(** * TripGo: trip-distance reconciliation

    A shallow embedding of the numeric core of the TripGo server:
    [calculateDistance] (Haversine), [roundDistance] (the business rounding
    rule), and the parts of the [/api/odometer], [/api/trip/start] and
    [/api/trip/end] handlers that decide a trip's distance and odometer.

    Modelling conventions.
    - A JavaScript number is a [number]: NaN, an infinity, or a finite
      value carried as a real.  Arithmetic on finite values is exact: the
      rounding of IEEE-754 doubles and the sign of zero are abstracted.
      The statements proved over [number] are those that rounding leaves
      intact; where rounding or overflow decides what the code returns,
      [roundDistance] and [calculateDistance] are evaluated on the doubles
      themselves, in [Double].
    - A request field is a [JSValue]: what [JSON.parse] can deliver, or
      [undefined] when the field is missing.  Operators coerce their
      operands as ECMAScript prescribes ([ToNumber], [ToBoolean]).  An
      object that cannot be converted at all is a [Field] of its own.
    - Handlers are functions from the stored user data and the request to
      a response; persistence, geocoding and CSV export are left out, and
      with them the answer 500 of a handler whose [save] is rejected. *)

From Stdlib Require Import Reals Lra Lia ZArith Bool String List.
From Stdlib Require Import Ascii NArith.
From Stdlib Require Import Floats.SpecFloat.
Import ListNotations.

Local Open Scope R_scope.

(** ** Numbers *)

Module Num.

Inductive number : Type :=
| NaN
| Inf (negative : bool)
| Fin (r : R).

Definition PInf : number := Inf false.
Definition NInf : number := Inf true.

Definition Rltb (a b : R) : bool := if Rlt_dec a b then true else false.
Definition Rleb (a b : R) : bool := if Rle_dec a b then true else false.
Definition Reqb (a b : R) : bool := if Req_dec_T a b then true else false.

Definition is_nan (x : number) : bool :=
  match x with NaN => true | _ => false end.

Definition is_finite (x : number) : bool :=
  match x with Fin _ => true | _ => false end.

Definition neg (x : number) : number :=
  match x with
  | NaN => NaN
  | Inf s => Inf (negb s)
  | Fin r => Fin (- r)
  end.

Definition add (x y : number) : number :=
  match x, y with
  | NaN, _ | _, NaN => NaN
  | Inf s, Inf t => if Bool.eqb s t then Inf s else NaN
  | Inf s, Fin _ | Fin _, Inf s => Inf s
  | Fin a, Fin b => Fin (a + b)
  end.

Definition sub (x y : number) : number := add x (neg y).

Definition mul (x y : number) : number :=
  match x, y with
  | NaN, _ | _, NaN => NaN
  | Inf s, Inf t => Inf (xorb s t)
  | Inf s, Fin r | Fin r, Inf s =>
      if Reqb r 0 then NaN else Inf (xorb s (Rltb r 0))
  | Fin a, Fin b => Fin (a * b)
  end.

(** Zero divisors count as [+0]. *)
Definition div (x y : number) : number :=
  match x, y with
  | NaN, _ | _, NaN => NaN
  | Inf _, Inf _ => NaN
  | Inf s, Fin r => Inf (xorb s (Rltb r 0))
  | Fin _, Inf _ => Fin 0
  | Fin a, Fin b =>
      if Reqb b 0
      then (if Reqb a 0 then NaN else Inf (Rltb a 0))
      else Fin (a / b)
  end.

(** [x <= y] and [x > y] of JavaScript: false as soon as a NaN is involved. *)
Definition le (x y : number) : bool :=
  match x, y with
  | NaN, _ | _, NaN => false
  | Inf true, _ => true
  | _, Inf false => true
  | Inf false, _ => false
  | _, Inf true => false
  | Fin a, Fin b => Rleb a b
  end.

Definition lt (x y : number) : bool :=
  match x, y with
  | NaN, _ | _, NaN => false
  | Inf s, Inf t => andb s (negb t)
  | Inf s, Fin _ => s
  | Fin _, Inf t => negb t
  | Fin a, Fin b => Rltb a b
  end.

Definition gt (x y : number) : bool := lt y x.

Definition eq_zero (x : number) : bool :=
  match x with Fin r => Reqb r 0 | _ => false end.

End Num.
Export Num.

(** ** The [Math] object *)

Module Math.

Definition Rfloor (r : R) : R := IZR (Int_part r).
Definition Rceil (r : R) : R := - IZR (Int_part (- r)).
(** [Math.round]: nearest integer, a tie goes up. *)
Definition Rround (r : R) : R := IZR (Int_part (r + / 2)).

Definition lift_int (f : R -> R) (x : number) : number :=
  match x with
  | NaN => NaN
  | Inf s => Inf s
  | Fin r => Fin (f r)
  end.

Definition floor : number -> number := lift_int Rfloor.
Definition ceil : number -> number := lift_int Rceil.
Definition round : number -> number := lift_int Rround.

Definition PI : number := Fin Rtrigo1.PI.

Definition sin (x : number) : number :=
  match x with Fin r => Fin (Rtrigo_def.sin r) | _ => NaN end.

Definition cos (x : number) : number :=
  match x with Fin r => Fin (Rtrigo_def.cos r) | _ => NaN end.

Definition sqrt (x : number) : number :=
  match x with
  | NaN => NaN
  | Inf s => if s then NaN else PInf
  | Fin r => if Rltb r 0 then NaN else Fin (R_sqrt.sqrt r)
  end.

(** [atan2] on the reals, by quadrant. *)
Definition Ratan2 (y x : R) : R :=
  if Rltb 0 x then atan (y / x)
  else if Rltb x 0 then
         (if Rltb y 0 then atan (y / x) - Rtrigo1.PI
          else atan (y / x) + Rtrigo1.PI)
  else if Rltb 0 y then Rtrigo1.PI / 2
  else if Rltb y 0 then - (Rtrigo1.PI / 2)
  else 0.

Definition atan2 (y x : number) : number :=
  match y, x with
  | NaN, _ | _, NaN => NaN
  | Fin a, Fin b => Fin (Ratan2 a b)
  | Fin a, Inf false => Fin 0
  | Fin a, Inf true =>
      Fin (if Rltb a 0 then - Rtrigo1.PI else Rtrigo1.PI)
  | Inf s, Fin _ =>
      Fin (if s then - (Rtrigo1.PI / 2) else Rtrigo1.PI / 2)
  | Inf s, Inf false =>
      Fin (if s then - (Rtrigo1.PI / 4) else Rtrigo1.PI / 4)
  | Inf s, Inf true =>
      Fin (if s then - (3 * Rtrigo1.PI / 4) else 3 * Rtrigo1.PI / 4)
  end.

End Math.


Declare Scope js_scope.
Delimit Scope js_scope with js.
Bind Scope js_scope with number.
Infix "+" := Num.add : js_scope.
Infix "-" := Num.sub : js_scope.
Infix "*" := Num.mul : js_scope.
Infix "/" := Num.div : js_scope.
Infix "<=?" := Num.le (at level 70) : js_scope.
Infix "<?" := Num.lt (at level 70) : js_scope.
Infix ">?" := Num.gt (at level 70) : js_scope.

(** ** Values and records *)

(** What a field of a JSON request body can hold.  An array or object that
    keeps the default [valueOf] and [toString] behaves in arithmetic and
    comparisons as the string [toString] returns, which is all [VObject]
    records.  (An object that shadows both with non-functions cannot be
    converted at all and is not represented.) *)
Inductive JSValue : Type :=
| VUndefined
| VNull
| VBool (b : bool)
| VNumber (n : number)
| VString (s : string)
| VObject (toString : string).

(** A field of a request body as the handler destructures it: a value the
    operators can convert, or an object such as [{"toString": 0}], which is
    truthy and whose conversion to a primitive throws a [TypeError]. *)
Inductive Field : Type :=
| Converts (v : JSValue)
| Unconvertible.

(** [newTrip] of [/api/trip/start], kept in [userData.activeTrip]; the fields
    that play no part in the distance ([id], [purpose], dates, areas, route
    points) are left out. *)
Record Trip : Type := {
  startOdometer : number;
  startLatitude : JSValue;
  startLongitude : JSValue
}.

(** models/UserData.js: [currentOdometer] is schema-typed [Number]. *)
Record UserData : Type := {
  currentOdometer : number;
  activeTrip : option Trip
}.

Module Body.
(** The destructured body of [POST /api/trip/end]. *)
Record t : Type := {
  latitude : JSValue;
  longitude : JSValue;
  gpsDistance : JSValue;
  actualTravelledDistance : JSValue;
  userProvidedEndOdometer : JSValue
}.
End Body.

Module Completed.
(** [completedTrip] of [/api/trip/end]: the started trip and what the end
    adds to it. *)
Record t : Type := {
  trip : Trip;
  endLatitude : JSValue;
  endLongitude : JSValue;
  gpsDistance : JSValue;
  endOdometer : number;
  totalDistance : number;
  distanceSource : string
}.
End Completed.

(** The locals of the trip-end handler between the fallback distance and the
    new odometer. *)
Record Reconciliation : Type := {
  straightLineDistance : number;
  finalDistance : JSValue;
  distanceSource : string;
  roundedDistance : number;
  newEndOdometer : number
}.

Module Raw.
(** The destructured body of [POST /api/trip/end], conversions not yet
    attempted. *)
Record body : Type := {
  latitude : Field;
  longitude : Field;
  gpsDistance : Field;
  actualTravelledDistance : Field;
  userProvidedEndOdometer : Field
}.

(** What the reconciliation hands on when nothing is thrown. *)
Record t : Type := {
  distanceSource : string;
  roundedDistance : number;
  newEndOdometer : number
}.
End Raw.

(** A body all of whose fields convert. *)
Definition fields_of (body : Body.t) : Raw.body :=
  {| Raw.latitude := Converts (Body.latitude body);
     Raw.longitude := Converts (Body.longitude body);
     Raw.gpsDistance := Converts (Body.gpsDistance body);
     Raw.actualTravelledDistance := Converts (Body.actualTravelledDistance body);
     Raw.userProvidedEndOdometer :=
       Converts (Body.userProvidedEndOdometer body) |}.

(** A handler answers with a payload or with [res.status(code).json({error})]. *)
Inductive result (A : Type) : Type :=
| Ok (payload : A)
| Err (status : nat) (error : string).
Arguments Ok {A} payload.
Arguments Err {A} status error.

Inductive Request : Type :=
| PostOdometer (odometer : JSValue)
| PostTripStart (latitude longitude : JSValue)
| PostTripEnd (body : Body.t).

(** The state of one user: the [UserData] document, and the [completedTrip]
    objects of the trip ends answered so far, oldest first.  (Each is handed
    to [new Trip(...)], which casts it to the schema; [DELETE] removes
    documents of the collection and leaves this history as it is.) *)
Record Server : Type := {
  userData : UserData;
  trips : list Completed.t
}.

(** ** Operators that do not coerce strings *)

Definition ToBoolean (v : JSValue) : bool :=
  match v with
  | VUndefined | VNull => false
  | VBool b => b
  | VNumber n => negb (is_nan n || eq_zero n)
  | VString s => negb (String.eqb s "")
  | VObject _ => true
  end.

(** [v !== null && v !== undefined] *)
Definition provided (v : JSValue) : bool :=
  match v with
  | VNull | VUndefined => false
  | _ => true
  end.

(** [a || b] *)
Definition js_or (a b : JSValue) : JSValue := if ToBoolean a then a else b.

Local Open Scope js_scope.

(** Custom rounding function based on business rule.  The first test,
    [typeof value !== 'number' || isNaN(value)], lets through the numbers
    other than NaN. *)
Definition roundDistance (value : JSValue) : number :=
  match value with
  | VNumber n =>
      if is_nan n then Fin 0
      else
        let decimal := n - Math.floor n in
        if decimal <=? Fin 0.5 then Math.floor n else Math.ceil n
  | _ => Fin 0
  end.

(** ** Functions that may coerce a string *)

Section Engine.

(** ECMAScript's StringToNumber (behind [ToNumber], hence behind [-], [*],
    [>] and [isNaN]) and the prefix parser of [parseFloat] belong to the
    JavaScript engine; the model is parametric in them. *)
Variable StringToNumber : string -> number.
Variable StringToFloat : string -> number.

Definition ToNumber (v : JSValue) : number :=
  match v with
  | VUndefined => NaN
  | VNull => Fin 0
  | VBool b => if b then Fin 1 else Fin 0
  | VNumber n => n
  | VString s => StringToNumber s
  | VObject s => StringToNumber s
  end.

Definition isNaN (v : JSValue) : bool := is_nan (ToNumber v).

(** [parseFloat] reads its argument's string form; a number's string form
    reads back as that number. *)
Definition parseFloat (v : JSValue) : number :=
  match v with
  | VNumber n => n
  | VString s | VObject s => StringToFloat s
  | VUndefined | VNull | VBool _ => NaN
  end.

(** Helper function to calculate distance between two coordinates
    (Haversine formula). *)
Definition calculateDistance (lat1 lon1 lat2 lon2 : JSValue) : number :=
  let R := Fin 6371 in
  let dLat := (ToNumber lat2 - ToNumber lat1) * Math.PI / Fin 180 in
  let dLon := (ToNumber lon2 - ToNumber lon1) * Math.PI / Fin 180 in
  let a :=
    Math.sin (dLat / Fin 2) * Math.sin (dLat / Fin 2) +
    Math.cos (ToNumber lat1 * Math.PI / Fin 180) *
    Math.cos (ToNumber lat2 * Math.PI / Fin 180) *
    Math.sin (dLon / Fin 2) * Math.sin (dLon / Fin 2) in
  let c := Fin 2 * Math.atan2 (Math.sqrt a) (Math.sqrt (Fin 1 - a)) in
  let distance := R * c in
  Math.round (distance * Fin 100) / Fin 100.

(** [POST /api/trip/end], from the fallback distance to the new odometer. *)
Definition reconcile (trip : Trip) (currentOdometer : number) (body : Body.t)
  : Reconciliation :=
  let gpsDistance := Body.gpsDistance body in
  let userProvidedEndOdometer := Body.userProvidedEndOdometer body in
  let straightLineDistance :=
    calculateDistance (startLatitude trip) (startLongitude trip)
                      (Body.latitude body) (Body.longitude body) in
  let '(finalDistance, distanceSource) :=
    if provided userProvidedEndOdometer then
      (Body.actualTravelledDistance body, "odometer reading"%string)
    else if ToBoolean gpsDistance && (ToNumber gpsDistance >? Fin 0.01) then
      (gpsDistance, "GPS tracking"%string)
    else
      (VNumber straightLineDistance, "straight-line calculation"%string) in
  let roundedDistance := roundDistance finalDistance in
  let newEndOdometer :=
    if provided userProvidedEndOdometer then
      roundDistance userProvidedEndOdometer
    else
      roundDistance (VNumber (currentOdometer + roundedDistance)) in
  {| straightLineDistance := straightLineDistance;
     finalDistance := finalDistance;
     distanceSource := distanceSource;
     roundedDistance := roundedDistance;
     newEndOdometer := newEndOdometer |}.

(** [typeof value !== 'number'] holds of an object, whatever its
    conversions do. *)
Definition roundDistance_field (value : Field) : number :=
  match value with
  | Converts v => roundDistance v
  | Unconvertible => Fin 0
  end.

(** [v !== null && v !== undefined] *)
Definition provided_field (value : Field) : bool :=
  match value with
  | Converts v => provided v
  | Unconvertible => true
  end.

(** The same lines of [POST /api/trip/end] on the fields as they arrive.
    [calculateDistance] subtracts and multiplies its arguments, and
    [gpsDistance > 0.01] compares: on an object that cannot be converted
    they throw, and the handler's [catch] answers 500. *)
Definition reconcile_fields (trip : Trip) (currentOdometer : number)
    (body : Raw.body) : result Raw.t :=
  match Raw.latitude body, Raw.longitude body with
  | Converts latitude, Converts longitude =>
      let gpsDistance := Raw.gpsDistance body in
      let userProvidedEndOdometer := Raw.userProvidedEndOdometer body in
      let straightLineDistance :=
        calculateDistance (startLatitude trip) (startLongitude trip)
                          latitude longitude in
      if provided_field userProvidedEndOdometer then
        Ok {| Raw.distanceSource := "odometer reading";
              Raw.roundedDistance :=
                roundDistance_field (Raw.actualTravelledDistance body);
              Raw.newEndOdometer :=
                roundDistance_field userProvidedEndOdometer |}
      else
        match gpsDistance with
        | Unconvertible => Err 500 "Failed to end trip"
        | Converts gpsDistance =>
            let '(finalDistance, distanceSource) :=
              if ToBoolean gpsDistance && (ToNumber gpsDistance >? Fin 0.01)
              then (gpsDistance, "GPS tracking"%string)
              else (VNumber straightLineDistance,
                    "straight-line calculation"%string) in
            let roundedDistance := roundDistance finalDistance in
            Ok {| Raw.distanceSource := distanceSource;
                  Raw.roundedDistance := roundedDistance;
                  Raw.newEndOdometer :=
                    roundDistance
                      (VNumber (currentOdometer + roundedDistance)) |}
        end
  | _, _ => Err 500 "Failed to end trip"
  end.

(** [POST /api/odometer] *)
Definition api_odometer (userData : UserData) (odometer : JSValue)
  : result UserData :=
  if negb (ToBoolean odometer) || isNaN odometer
     || (parseFloat odometer <? Fin 0)
  then Err 400 "Valid odometer reading is required"
  else Ok {| currentOdometer := parseFloat odometer;
             activeTrip := activeTrip userData |}.

(** [POST /api/trip/start]; the checks of [purpose] and [date], which come
    first and do not touch the odometer, are left out. *)
Definition api_trip_start (userData : UserData) (latitude longitude : JSValue)
  : result UserData :=
  if negb (ToBoolean latitude) || negb (ToBoolean longitude)
  then Err 400 "Location coordinates are required"
  else
    match activeTrip userData with
    | Some _ => Err 400 "Please end current trip before starting a new one"
    | None =>
        let newTrip := {| startOdometer := currentOdometer userData;
                          startLatitude := latitude;
                          startLongitude := longitude |} in
        Ok {| currentOdometer := currentOdometer userData;
              activeTrip := Some newTrip |}
    end.

(** [POST /api/trip/end]: the completed trip and the updated user data. *)
Definition api_trip_end (userData : UserData) (body : Body.t)
  : result (Completed.t * UserData) :=
  if negb (ToBoolean (Body.latitude body))
     || negb (ToBoolean (Body.longitude body))
  then Err 400 "Location coordinates are required"
  else
    match activeTrip userData with
    | None => Err 400 "No active trip found"
    | Some trip =>
        let r := reconcile trip (currentOdometer userData) body in
        let completedTrip :=
          {| Completed.trip := trip;
             Completed.endLatitude := Body.latitude body;
             Completed.endLongitude := Body.longitude body;
             Completed.gpsDistance :=
               js_or (Body.gpsDistance body) (VNumber (Fin 0));
             Completed.endOdometer := newEndOdometer r;
             Completed.totalDistance := roundedDistance r;
             Completed.distanceSource := distanceSource r |} in
        Ok (completedTrip,
            {| currentOdometer := newEndOdometer r; activeTrip := None |})
    end.

(** [getUserData] creates a user's document on first use. *)
Definition initial : Server :=
  {| userData := {| currentOdometer := Fin 0; activeTrip := None |};
     trips := [] |}.

(** One request against the stored state; a refused request changes nothing. *)
Definition handle (s : Server) (rq : Request) : Server :=
  match rq with
  | PostOdometer odometer =>
      match api_odometer (userData s) odometer with
      | Ok u => {| userData := u; trips := trips s |}
      | Err _ _ => s
      end
  | PostTripStart latitude longitude =>
      match api_trip_start (userData s) latitude longitude with
      | Ok u => {| userData := u; trips := trips s |}
      | Err _ _ => s
      end
  | PostTripEnd body =>
      match api_trip_end (userData s) body with
      | Ok (completedTrip, u) =>
          {| userData := u; trips := trips s ++ [completedTrip] |}
      | Err _ _ => s
      end
  end.

Definition serve (requests : list Request) : Server :=
  fold_left handle requests initial.

End Engine.

Local Close Scope js_scope.

(** ** Reference definitions and predicates *)

Definition radians (degrees : R) : R := degrees * PI / 180.

(** The Haversine great-circle distance on a sphere of radius 6371 km, as
    the textbooks give it: [2 R asin (sqrt h)], [h] the haversine of the
    central angle. *)
Definition haversine_km (lat1 lon1 lat2 lon2 : R) : R :=
  let h :=
    (sin ((radians lat2 - radians lat1) / 2))² +
    cos (radians lat1) * cos (radians lat2) *
    (sin ((radians lon2 - radians lon1) / 2))² in
  2 * 6371 * asin (sqrt h).

(** The [a] of [calculateDistance] when the four coordinates are finite
    numbers. *)
Definition haversine_a (lat1 lon1 lat2 lon2 : R) : R :=
  let dLat := (lat2 - lat1) * PI / 180 in
  let dLon := (lon2 - lon1) * PI / 180 in
  sin (dLat / 2) * sin (dLat / 2) +
  cos (lat1 * PI / 180) * cos (lat2 * PI / 180) *
  sin (dLon / 2) * sin (dLon / 2).

(** Rounding to two decimal places: the nearest hundredth. *)
Definition round_2dp (x : R) : R := Math.Rround (x * 100) / 100.

(** A whole number: finite and integral. *)
Definition is_whole (n : number) : Prop := exists z : Z, n = Fin (IZR z).

(** [0 <= n] *)
Definition nonneg (n : number) : Prop := Num.le (Fin 0) n = true.

(** A number in the sense of [typeof v === 'number' && !isNaN(v)]. *)
Definition numeric (v : JSValue) : Prop :=
  exists n : number, v = VNumber n /\ is_nan n = false.

(** ** Sample requests *)

Module Sample.

(** The sample requests carry numbers only: no string is ever converted, and
    any conversion serves. *)
Definition engine : string -> number := fun _ => NaN.

Definition num (x : R) : JSValue := VNumber (Fin x).

(** A trip from Sydney ... *)
Definition trip (odometer : R) : Trip :=
  {| startOdometer := Fin odometer;
     startLatitude := num (-33.8688);
     startLongitude := num 151.2093 |}.

Definition user (odometer : R) : UserData :=
  {| currentOdometer := Fin odometer; activeTrip := Some (trip odometer) |}.

(** ... to Melbourne. *)
Definition body (gpsDistance actualTravelledDistance userProvidedEndOdometer
                 : JSValue) : Body.t :=
  {| Body.latitude := num (-37.8136);
     Body.longitude := num 144.9631;
     Body.gpsDistance := gpsDistance;
     Body.actualTravelledDistance := actualTravelledDistance;
     Body.userProvidedEndOdometer := userProvidedEndOdometer |}.

Definition start : Request := PostTripStart (num (-33.8688)) (num 151.2093).

Definition completed (odometer : R) (gpsDistance : JSValue)
                     (endOdometer totalDistance : number) (source : string)
  : Completed.t :=
  {| Completed.trip := trip odometer;
     Completed.endLatitude := num (-37.8136);
     Completed.endLongitude := num 144.9631;
     Completed.gpsDistance := gpsDistance;
     Completed.endOdometer := endOdometer;
     Completed.totalDistance := totalDistance;
     Completed.distanceSource := source |}.

End Sample.

(** ** Further handlers and helpers *)

(** JavaScript strings are sequences of UTF-16 code units. *)
Definition jsstring : Type := list N.

Definition code_units (s : string) : jsstring :=
  map N_of_ascii (list_ascii_of_string s).

(** [POST /api/trip/route], as far as its answer goes: the route point the
    handler adds to the document it holds, and what [save] then stores of
    it, are left out. *)
Definition api_trip_route (userData : UserData) (latitude longitude : JSValue)
  : result unit :=
  if negb (ToBoolean latitude) || negb (ToBoolean longitude)
  then Err 400 "Location coordinates are required"
  else
    match activeTrip userData with
    | None => Err 400 "No active trip found"
    | Some _ => Ok tt
    end.

(** *** Token lifetime *)

Definition msPerDay : Z := 86400000.
Definition msPerHour : Z := 3600000.

(** [d.setHours(1, 0, 0, 0)] on the time value [d], in a time zone whose
    local time is UTC plus [offset] milliseconds throughout. *)
Definition setHours_1_0_0_0 (offset d : Z) : Z :=
  ((d + offset) / msPerDay * msPerDay + msPerHour - offset)%Z.

(** The [next1AM] of [getSecondsUntilNext1AM] when it computes the
    difference; [now] and [now'] are the two [new Date()] of the function, in
    that order. *)
Definition next1AM (offset now now' : Z) : Z :=
  let next1AM := setHours_1_0_0_0 offset now' in
  if (now >=? next1AM)%Z then (next1AM + msPerDay)%Z else next1AM.

(** Helper function to calculate seconds until next 1 AM for JWT
    expiration. *)
Definition getSecondsUntilNext1AM (offset now now' : Z) : Z :=
  let diffMs := (next1AM offset now now' - now)%Z in
  let diffSeconds := (diffMs / 1000)%Z in
  diffSeconds.

(** *** E-mail validation *)

Module Regex.

(** Regular expressions over code units, what the pattern of [isValidEmail]
    needs of them, matched by derivatives. *)
Inductive t : Type :=
| Void
| Eps
| Class (p : N -> bool)
| Cat (r s : t)
| Alt (r s : t)
| Star (r : t).

Fixpoint nullable (r : t) : bool :=
  match r with
  | Void => false
  | Eps => true
  | Class _ => false
  | Cat r s => nullable r && nullable s
  | Alt r s => nullable r || nullable s
  | Star _ => true
  end.

Fixpoint deriv (c : N) (r : t) : t :=
  match r with
  | Void => Void
  | Eps => Void
  | Class p => if p c then Eps else Void
  | Cat r s =>
      if nullable r
      then Alt (Cat (deriv c r) s) (deriv c s)
      else Cat (deriv c r) s
  | Alt r s => Alt (deriv c r) (deriv c s)
  | Star r => Cat (deriv c r) (Star r)
  end.

(** [/^r$/.test(s)] *)
Fixpoint test (r : t) (s : jsstring) : bool :=
  match s with
  | [] => nullable r
  | c :: s' => test (deriv c r) s'
  end.

(** [r+] and [r{2,}] *)
Definition plus (r : t) : t := Cat r (Star r).
Definition two_or_more (r : t) : t := Cat r (Cat r (Star r)).

(** The strings a regular expression denotes. *)
Inductive lang : t -> jsstring -> Prop :=
| lang_Eps : lang Eps []
| lang_Class p c : p c = true -> lang (Class p) [c]
| lang_Cat r s u v : lang r u -> lang s v -> lang (Cat r s) (u ++ v)
| lang_Alt_l r s u : lang r u -> lang (Alt r s) u
| lang_Alt_r r s u : lang s u -> lang (Alt r s) u
| lang_Star_nil r : lang (Star r) []
| lang_Star_cons r u v :
    lang r u -> lang (Star r) v -> lang (Star r) (u ++ v).

End Regex.

Definition between (lo hi : string) (c : N) : bool :=
  match code_units lo, code_units hi with
  | [l], [h] => (l <=? c)%N && (c <=? h)%N
  | _, _ => false
  end.

Definition one_of (chars : string) (c : N) : bool :=
  existsb (N.eqb c) (code_units chars).

Definition letter (c : N) : bool := between "a" "z" c || between "A" "Z" c.

Definition alphanumeric (c : N) : bool := letter c || between "0" "9" c.

(** [[a-zA-Z0-9._%+-]] and [[a-zA-Z0-9.-]] *)
Definition local_char (c : N) : bool := alphanumeric c || one_of "._%+-" c.
Definition domain_char (c : N) : bool := alphanumeric c || one_of ".-" c.

(** [/^[a-zA-Z0-9._%+-]+@[a-zA-Z0-9.-]+\.[a-zA-Z]{2,}$/] *)
Definition emailRegex : Regex.t :=
  Regex.Cat (Regex.plus (Regex.Class local_char))
    (Regex.Cat (Regex.Class (one_of "@"))
       (Regex.Cat (Regex.plus (Regex.Class domain_char))
          (Regex.Cat (Regex.Class (one_of "."))
             (Regex.two_or_more (Regex.Class letter))))).

(** Helper function for email validation. *)
Definition isValidEmail (email : jsstring) : bool :=
  Regex.test emailRegex email.

(** *** Reverse geocoding *)

Module Address.
(** The fields of [response.address] the helper looks at; a field that is
    absent is [undefined]. *)
Record t : Type := {
  city : JSValue;
  town : JSValue;
  village : JSValue;
  county : JSValue;
  state : JSValue
}.
End Address.

(** How the request to the geocoding service ends.  The body of a reply is
    [None] when [JSON.parse] throws, [Some None] when
    [response && response.address] is falsy, and the address otherwise. *)
Inductive GeocodingOutcome : Type :=
| RequestError
| RequestTimeout
| Reply (statusCode : Z) (body : option (option Address.t)).

(** What the promise of [getAreaFromCoordinates] resolves to. *)
Definition getAreaFromCoordinates (outcome : GeocodingOutcome) : JSValue :=
  match outcome with
  | RequestError | RequestTimeout => VString "Unknown Area"
  | Reply statusCode body =>
      if negb (statusCode =? 200)%Z then VString "Unknown Area"
      else
        match body with
        | None => VString "Unknown Area"
        | Some None => VString "Unknown Area"
        | Some (Some address) =>
            js_or
              (js_or
                 (js_or
                    (js_or
                       (js_or (Address.city address) (Address.town address))
                       (Address.village address))
                    (Address.county address))
                 (Address.state address))
              (VString "Unknown Area")
        end
  end.

(** *** Counting requests *)

Definition is_start (rq : Request) : bool :=
  match rq with PostTripStart _ _ => true | _ => false end.

Definition is_end (rq : Request) : bool :=
  match rq with PostTripEnd _ => true | _ => false end.

Definition is_odometer (rq : Request) : bool :=
  match rq with PostOdometer _ => true | _ => false end.

(** 1 when the user has an active trip, 0 otherwise. *)
Definition active_trips (userData : UserData) : nat :=
  match activeTrip userData with Some _ => 1 | None => 0 end.

(** The trips of a log follow one another: each starts at the odometer the
    one before ended at, the first at [odometer]. *)
Fixpoint chained (odometer : number) (log : list Completed.t) : Prop :=
  match log with
  | [] => True
  | completedTrip :: log' =>
      startOdometer (Completed.trip completedTrip) = odometer /\
      chained (Completed.endOdometer completedTrip) log'
  end.

(** The odometer a log ends at. *)
Definition last_odometer (odometer : number) (log : list Completed.t)
  : number :=
  fold_left (fun _ completedTrip => Completed.endOdometer completedTrip)
            log odometer.

(** ** Binary64 *)

Module Double.

(** The numbers of the program are IEEE-754 doubles: [spec_float] at
    precision 53 with exponents up to 1024, whose [SFadd], [SFsub], [SFmul],
    [SFdiv] and [SFsqrt] round to the nearest double, ties to even, and
    overflow to an infinity. *)
Definition prec : Z := 53.
Definition emax : Z := 1024.

Definition add : spec_float -> spec_float -> spec_float := SFadd prec emax.
Definition sub : spec_float -> spec_float -> spec_float := SFsub prec emax.
Definition mul : spec_float -> spec_float -> spec_float := SFmul prec emax.
Definition div : spec_float -> spec_float -> spec_float := SFdiv prec emax.
Definition le : spec_float -> spec_float -> bool := SFleb.

(** The double nearest to an integer; a zero gets the sign [negative]. *)
Definition of_Z (negative : bool) (z : Z) : spec_float :=
  binary_normalize prec emax z 0 negative.

(** An integer literal, and the decimal literal that reads [n / d], for [n]
    and [d] below 2^53. *)
Definition int (z : Z) : spec_float := of_Z false z.
Definition ratio (n d : Z) : spec_float := div (int n) (int d).

Definition is_nan (x : spec_float) : bool :=
  match x with S754_nan => true | _ => false end.

(** [Math.floor], [Math.ceil] and [Math.round] are exact.  A double with a
    non-negative exponent is an integer already; below, the integer is read
    off the signed mantissa.  A zero result keeps the sign of the argument. *)
Definition floor (x : spec_float) : spec_float :=
  match x with
  | S754_finite s m e =>
      if (0 <=? e)%Z then x
      else of_Z s (cond_Zopp s (Zpos m) / 2 ^ (- e))
  | _ => x
  end.

Definition ceil (x : spec_float) : spec_float :=
  match x with
  | S754_finite s m e =>
      if (0 <=? e)%Z then x
      else of_Z s (- (cond_Zopp (negb s) (Zpos m) / 2 ^ (- e)))
  | _ => x
  end.

Definition round (x : spec_float) : spec_float :=
  match x with
  | S754_finite s m e =>
      if (0 <=? e)%Z then x
      else of_Z s ((2 * cond_Zopp s (Zpos m) + 2 ^ (- e)) / 2 ^ (- e + 1))
  | _ => x
  end.

Definition sqrt : spec_float -> spec_float := SFsqrt prec emax.

(** [Math.PI] is the double 0x1.921fb54442d18p+1. *)
Definition PI : spec_float := S754_finite false 7074237752028440 (-51).

(** [roundDistance] on a value whose [typeof] is ['number']. *)
Definition roundDistance (value : spec_float) : spec_float :=
  if is_nan value then int 0
  else
    let decimal := sub value (floor value) in
    if le decimal (ratio 1 2) then floor value else ceil value.

Section Trigonometry.

(** [Math.sin], [Math.cos] and [Math.atan2] are approximated by the engine;
    ECMAScript fixes them on NaN, the infinities and the zeros only. *)
Variables engine_sin engine_cos : spec_float -> spec_float.
Variable engine_atan2 : spec_float -> spec_float -> spec_float.

Definition sin (x : spec_float) : spec_float :=
  match x with
  | S754_nan | S754_infinity _ => S754_nan
  | S754_zero _ => x
  | S754_finite _ _ _ => engine_sin x
  end.

Definition cos (x : spec_float) : spec_float :=
  match x with
  | S754_nan | S754_infinity _ => S754_nan
  | S754_zero _ => int 1
  | S754_finite _ _ _ => engine_cos x
  end.

Definition atan2 (y x : spec_float) : spec_float :=
  match y, x with
  | S754_nan, _ | _, S754_nan => S754_nan
  | S754_zero _,
    (S754_zero false | S754_finite false _ _ | S754_infinity false) => y
  | _, _ => engine_atan2 y x
  end.

(** [calculateDistance] on four numbers. *)
Definition calculateDistance (lat1 lon1 lat2 lon2 : spec_float)
  : spec_float :=
  let R := int 6371 in
  let dLat := div (mul (sub lat2 lat1) PI) (int 180) in
  let dLon := div (mul (sub lon2 lon1) PI) (int 180) in
  let a :=
    add (mul (sin (div dLat (int 2))) (sin (div dLat (int 2))))
        (mul (mul (mul (cos (div (mul lat1 PI) (int 180)))
                       (cos (div (mul lat2 PI) (int 180))))
                  (sin (div dLon (int 2))))
             (sin (div dLon (int 2)))) in
  let c := mul (int 2) (atan2 (sqrt a) (sqrt (sub (int 1) a))) in
  let distance := mul R c in
  div (round (mul distance (int 100))) (int 100).

End Trigonometry.

(** The real number a finite double stands for. *)
Definition to_R (s : bool) (m : positive) (e : Z) : R :=
  let magnitude :=
    if (0 <=? e)%Z then IZR (Zpos m * 2 ^ e)
    else IZR (Zpos m) / IZR (2 ^ (- e)) in
  if s then - magnitude else magnitude.

Definition to_number (x : spec_float) : number :=
  match x with
  | S754_nan => NaN
  | S754_infinity s => Inf s
  | S754_zero _ => Fin 0
  | S754_finite s m e => Fin (to_R s m e)
  end.

(** The double next above -0.5, which prints as -0.49999999999999994. *)
Definition above_minus_half : spec_float :=
  S754_finite true 9007199254740991 (-54).

(** The double that the literal [1e308] denotes. *)
Definition ten_to_308 : spec_float := int (10 ^ 308).

(** The sample computations reach none of the engine's functions. *)
Definition sample_sin : spec_float -> spec_float := fun _ => S754_nan.
Definition sample_cos : spec_float -> spec_float := fun _ => S754_nan.
Definition sample_atan2 : spec_float -> spec_float -> spec_float :=
  fun _ _ => S754_nan.

End Double.

(** -0.49999999999999994 as a real: 2^-54 above -1/2. *)
Definition above_minus_half : R := - (/ 2 - / 2 ^ 54).

(** ** Basic facts on the real-valued helpers *)

Lemma Rleb_true (a b : R) : a <= b -> Rleb a b = true.
Proof. unfold Rleb; destruct (Rle_dec a b); tauto. Qed.

Lemma Rleb_false (a b : R) : ~ a <= b -> Rleb a b = false.
Proof. unfold Rleb; destruct (Rle_dec a b); tauto. Qed.

Lemma Rltb_true (a b : R) : a < b -> Rltb a b = true.
Proof. unfold Rltb; destruct (Rlt_dec a b); tauto. Qed.

Lemma Rltb_false (a b : R) : ~ a < b -> Rltb a b = false.
Proof. unfold Rltb; destruct (Rlt_dec a b); tauto. Qed.

Lemma Reqb_true (a b : R) : a = b -> Reqb a b = true.
Proof. unfold Reqb; destruct (Req_dec_T a b); tauto. Qed.

Lemma Reqb_false (a b : R) : a <> b -> Reqb a b = false.
Proof. unfold Reqb; destruct (Req_dec_T a b); tauto. Qed.

(** Decide the real comparisons met in a goal, each by linear arithmetic. *)
Ltac Rbool :=
  repeat first
    [ rewrite Rleb_true by lra | rewrite Rleb_false by lra
    | rewrite Rltb_true by lra | rewrite Rltb_false by lra
    | rewrite Reqb_true by lra | rewrite Reqb_false by lra ].

Lemma Rfloor_spec (x : R) : Math.Rfloor x <= x < Math.Rfloor x + 1.
Proof.
  unfold Math.Rfloor. destruct (base_Int_part x) as [Hlo Hhi]. lra.
Qed.

Lemma Rfloor_unique (x : R) (z : Z) :
  IZR z <= x < IZR z + 1 -> Math.Rfloor x = IZR z.
Proof.
  intros [Hlo Hhi]. unfold Math.Rfloor. f_equal.
  symmetry. apply Int_part_spec. lra.
Qed.

Lemma Rfloor_IZR (z : Z) : Math.Rfloor (IZR z) = IZR z.
Proof. apply Rfloor_unique. lra. Qed.

Lemma Rceil_spec (x : R) : Math.Rceil x - 1 < x <= Math.Rceil x.
Proof.
  unfold Math.Rceil. destruct (base_Int_part (- x)) as [Hlo Hhi]. lra.
Qed.

Lemma Rceil_unique (x : R) (z : Z) :
  IZR z - 1 < x <= IZR z -> Math.Rceil x = IZR z.
Proof.
  intros [Hlo Hhi]. unfold Math.Rceil.
  rewrite <- (Int_part_spec (- x) (- z)).
  - rewrite opp_IZR. lra.
  - rewrite opp_IZR. lra.
Qed.

Lemma Rceil_IZR (z : Z) : Math.Rceil (IZR z) = IZR z.
Proof. apply Rceil_unique. lra. Qed.

(** The ceiling is the floor on an integer and the floor plus one elsewhere. *)
Lemma Rceil_floor (x : R) :
  Math.Rceil x = if Reqb x (Math.Rfloor x) then Math.Rfloor x
                 else Math.Rfloor x + 1.
Proof.
  pose proof (Rfloor_spec x) as Hf.
  unfold Reqb. destruct (Req_dec_T x (Math.Rfloor x)) as [He | Hne].
  - rewrite He at 1. unfold Math.Rfloor. apply Rceil_IZR.
  - unfold Math.Rfloor in *. rewrite <- plus_IZR.
    apply Rceil_unique. rewrite plus_IZR. lra.
Qed.

(** [roundDistance] on a finite number, in terms of the reals. *)
Lemma roundDistance_Fin (x : R) :
  roundDistance (VNumber (Fin x)) =
  Fin (if Rleb (x - Math.Rfloor x) 0.5 then Math.Rfloor x else Math.Rceil x).
Proof.
  unfold roundDistance. simpl.
  replace (x + - Math.Rfloor x) with (x - Math.Rfloor x) by lra.
  destruct (Rleb (x - Math.Rfloor x) 0.5); reflexivity.
Qed.

Lemma roundDistance_IZR (z : Z) :
  roundDistance (VNumber (Fin (IZR z))) = Fin (IZR z).
Proof.
  rewrite roundDistance_Fin, Rfloor_IZR. Rbool. reflexivity.
Qed.

(** C2, as the doubles have it: [roundDistance] returns the floor of [x] when
    the fractional part [x - floor x] is at most 0.5, and the ceiling of [x]
    otherwise unless [x] is -0.49999999999999994; so 3.5 gives 3, 3.50001
    gives 4 and -1.3 gives -1, on the reals and on the doubles. *)
Theorem roundDistance_midpoint_down :
  (forall x : R,
      x - Math.Rfloor x <= 0.5 ->
      roundDistance (VNumber (Fin x)) = Fin (Math.Rfloor x)) /\
  (forall x : R,
      x <> above_minus_half ->
      ~ x - Math.Rfloor x <= 0.5 ->
      roundDistance (VNumber (Fin x)) = Fin (Math.Rceil x)) /\
  (roundDistance (VNumber (Fin 3.5)) = Fin 3 /\
   roundDistance (VNumber (Fin 3.50001)) = Fin 4 /\
   roundDistance (VNumber (Fin (-1.3))) = Fin (-1)) /\
  (Double.roundDistance (Double.ratio 35 10) = Double.int 3 /\
   Double.roundDistance (Double.ratio 350001 100000) = Double.int 4 /\
   Double.roundDistance (Double.ratio (-13) 10) = Double.int (-1)).
Proof.
  split; [| split; [| split; [split; [| split] |]]].
  - intros x Hx. rewrite roundDistance_Fin. Rbool. reflexivity.
  - intros x _ Hx. rewrite roundDistance_Fin. Rbool. reflexivity.
  - rewrite roundDistance_Fin.
    rewrite (Rfloor_unique 3.5 3) by lra. Rbool. reflexivity.
  - rewrite roundDistance_Fin.
    rewrite (Rfloor_unique 3.50001 3) by lra.
    rewrite (Rceil_unique 3.50001 4) by lra. Rbool. reflexivity.
  - rewrite roundDistance_Fin.
    rewrite (Rfloor_unique (-1.3) (-2)) by lra.
    rewrite (Rceil_unique (-1.3) (-1)) by lra. Rbool. reflexivity.
  - repeat split; vm_compute; reflexivity.
Qed.

Lemma roundDistance_Inf (s : bool) : roundDistance (VNumber (Inf s)) = Inf s.
Proof. destruct s; reflexivity. Qed.

Lemma roundDistance_not_number (v : JSValue) :
  (forall n, v <> VNumber n) -> roundDistance v = Fin 0.
Proof.
  intros Hv. destruct v; try reflexivity. exfalso. apply (Hv n). reflexivity.
Qed.

Lemma roundDistance_floor_or_ceil (x : R) :
  roundDistance (VNumber (Fin x)) = Fin (Math.Rfloor x) \/
  roundDistance (VNumber (Fin x)) = Fin (Math.Rceil x).
Proof.
  rewrite roundDistance_Fin.
  destruct (Rleb (x - Math.Rfloor x) 0.5); [left | right]; reflexivity.
Qed.

Lemma roundDistance_Fin_whole (x : R) :
  is_whole (roundDistance (VNumber (Fin x))).
Proof.
  destruct (roundDistance_floor_or_ceil x) as [H | H]; rewrite H.
  - exists (Int_part x). reflexivity.
  - exists (- Int_part (- x))%Z. unfold Math.Rceil. rewrite opp_IZR. reflexivity.
Qed.

(** Whatever it is given, [roundDistance] returns a whole number, or the
    infinity it was given. *)
Lemma roundDistance_whole_or_Inf (v : JSValue) :
  is_whole (roundDistance v) \/
  exists s, v = VNumber (Inf s) /\ roundDistance v = Inf s.
Proof.
  destruct v as [ | | b | [ | s | x] | str | str ];
    try (left; exists 0%Z; reflexivity).
  - right. exists s. split; [reflexivity | apply roundDistance_Inf].
  - left. apply roundDistance_Fin_whole.
Qed.

Lemma roundDistance_never_NaN (v : JSValue) : is_nan (roundDistance v) = false.
Proof.
  destruct (roundDistance_whole_or_Inf v) as [[z Hz] | [s [_ Hs]]].
  - rewrite Hz. reflexivity.
  - rewrite Hs. reflexivity.
Qed.

Lemma roundDistance_idempotent (v : JSValue) :
  roundDistance (VNumber (roundDistance v)) = roundDistance v.
Proof.
  destruct (roundDistance_whole_or_Inf v) as [[z Hz] | [s [_ Hs]]].
  - rewrite Hz. apply roundDistance_IZR.
  - rewrite Hs. apply roundDistance_Inf.
Qed.

(** ** Algebra of [number] *)

Section NumberAlgebra.

Local Open Scope js_scope.

Lemma Fin_eq (a b : R) : a = b -> Fin a = Fin b.
Proof. intros ->. reflexivity. Qed.

Lemma Rltb_opp (a : R) : a <> 0%R -> Rltb (- a) 0 = negb (Rltb a 0).
Proof.
  intros Ha. unfold Rltb.
  destruct (Rlt_dec (- a) 0), (Rlt_dec a 0); try reflexivity; exfalso; lra.
Qed.

Lemma Reqb_opp (a : R) : Reqb (- a) 0 = Reqb a 0.
Proof.
  unfold Reqb.
  destruct (Req_dec_T (- a) 0), (Req_dec_T a 0); try reflexivity; exfalso; lra.
Qed.

Lemma neg_involutive (x : number) : Num.neg (Num.neg x) = x.
Proof.
  destruct x as [ | s | a]; simpl; try reflexivity.
  - rewrite negb_involutive. reflexivity.
  - apply Fin_eq. lra.
Qed.

Lemma sub_antisym (x y : number) : x - y = Num.neg (y - x).
Proof.
  destruct x as [ | [] | a], y as [ | [] | b]; simpl;
    try reflexivity; apply Fin_eq; lra.
Qed.

Lemma mul_comm (x y : number) : x * y = y * x.
Proof.
  destruct x as [ | s | a], y as [ | t | b]; simpl; try reflexivity.
  - rewrite xorb_comm. reflexivity.
  - apply Fin_eq. lra.
Qed.

Lemma mul_neg_l (x y : number) : Num.neg x * y = Num.neg (x * y).
Proof.
  destruct x as [ | s | a], y as [ | t | b]; simpl; try reflexivity.
  - destruct s, t; reflexivity.
  - destruct (Reqb b 0); [reflexivity |].
    destruct s, (Rltb b 0); reflexivity.
  - rewrite Reqb_opp.
    destruct (Req_dec_T a 0) as [Ha | Ha];
      [rewrite (Reqb_true _ _ Ha); reflexivity | rewrite (Reqb_false _ _ Ha)].
    rewrite (Rltb_opp a Ha). simpl. destruct t, (Rltb a 0); reflexivity.
  - apply Fin_eq. lra.
Qed.

Lemma mul_neg_r (x y : number) : x * Num.neg y = Num.neg (x * y).
Proof. rewrite mul_comm, mul_neg_l, mul_comm. reflexivity. Qed.

Lemma mul_neg_neg (x y : number) : Num.neg x * Num.neg y = x * y.
Proof. rewrite mul_neg_l, mul_neg_r, neg_involutive. reflexivity. Qed.

Lemma mul_mul_neg (c x : number) : c * Num.neg x * Num.neg x = c * x * x.
Proof.
  rewrite (mul_neg_r c x), mul_neg_neg. reflexivity.
Qed.

Lemma div_neg_l (x y : number) : Num.neg x / y = Num.neg (x / y).
Proof.
  destruct x as [ | s | a], y as [ | t | b]; simpl; try reflexivity.
  - destruct s, (Rltb b 0); reflexivity.
  - apply Fin_eq. lra.
  - destruct (Reqb b 0) eqn:Hb.
    + rewrite Reqb_opp.
      destruct (Req_dec_T a 0) as [Ha | Ha];
        [rewrite (Reqb_true _ _ Ha); reflexivity
        | rewrite (Reqb_false _ _ Ha)].
      rewrite (Rltb_opp a Ha). reflexivity.
    + apply Fin_eq. unfold Reqb in Hb.
      destruct (Req_dec_T b 0); [discriminate |]. field. assumption.
Qed.

Lemma sin_neg_num (x : number) : Math.sin (Num.neg x) = Num.neg (Math.sin x).
Proof.
  destruct x as [ | s | a]; simpl; try reflexivity.
  apply Fin_eq, sin_neg.
Qed.

(** NaN and the infinities spread through the arithmetic of
    [calculateDistance]. *)
Lemma is_finite_Fin (x : number) : is_finite x = true -> exists a, x = Fin a.
Proof. destruct x as [ | s | a]; try discriminate. intros _. exists a. reflexivity. Qed.

Lemma sub_nonfinite_l (x y : number) :
  is_finite x = false -> is_finite (x - y) = false.
Proof. destruct x as [ | [] | a], y as [ | [] | b]; try discriminate; reflexivity. Qed.

Lemma sub_nonfinite_r (x y : number) :
  is_finite y = false -> is_finite (x - y) = false.
Proof. destruct x as [ | [] | a], y as [ | [] | b]; try discriminate; reflexivity. Qed.

Lemma mul_nonfinite_l (x y : number) :
  is_finite x = false -> is_finite (x * y) = false.
Proof.
  destruct x as [ | s | a], y as [ | t | b]; try discriminate; try reflexivity.
  intros _. simpl. destruct (Reqb b 0); reflexivity.
Qed.

Lemma div_nonfinite_l (x y : number) :
  is_finite x = false -> is_finite (x / y) = false.
Proof.
  destruct x as [ | s | a], y as [ | t | b]; try discriminate; reflexivity.
Qed.

Lemma sin_nonfinite (x : number) : is_finite x = false -> Math.sin x = NaN.
Proof. destruct x; try discriminate; reflexivity. Qed.

Lemma cos_nonfinite (x : number) : is_finite x = false -> Math.cos x = NaN.
Proof. destruct x; try discriminate; reflexivity. Qed.

Lemma mul_NaN_l (x : number) : NaN * x = NaN.
Proof. reflexivity. Qed.

Lemma mul_NaN_r (x : number) : x * NaN = NaN.
Proof. destruct x; reflexivity. Qed.

Lemma add_NaN_r (x : number) : x + NaN = NaN.
Proof. destruct x; reflexivity. Qed.

(** [Math.sin(d * Math.PI / 180 / 2)] is odd in [d]. *)
Lemma half_angle_sin_odd (d : number) :
  Math.sin (Num.neg d * Math.PI / Fin 180 / Fin 2) =
  Num.neg (Math.sin (d * Math.PI / Fin 180 / Fin 2)).
Proof.
  rewrite mul_neg_l, !div_neg_l, sin_neg_num. reflexivity.
Qed.

End NumberAlgebra.

(** ** The Haversine formula on the reals *)

Lemma half_angle_sin_sqr (x y : R) :
  sin ((y - x) / 2) * sin ((y - x) / 2) =
  (1 - (cos x * cos y + sin x * sin y)) / 2.
Proof.
  pose proof (cos_2a_sin ((y - x) / 2)) as H2.
  replace (2 * ((y - x) / 2)) with (y - x) in H2 by lra.
  rewrite cos_minus in H2. lra.
Qed.

(** The haversine of the central angle lies between 0 and 1, whatever the
    coordinates. *)
Lemma haversine_a_bounds (lat1 lon1 lat2 lon2 : R) :
  0 <= haversine_a lat1 lon1 lat2 lon2 <= 1.
Proof.
  unfold haversine_a.
  set (x := lat1 * PI / 180). set (y := lat2 * PI / 180).
  replace ((lat2 - lat1) * PI / 180) with (y - x) by (unfold x, y; lra).
  set (s := sin ((lon2 - lon1) * PI / 180 / 2)).
  rewrite half_angle_sin_sqr.
  pose proof (COS_bound (y - x)) as Hm. rewrite cos_minus in Hm.
  pose proof (COS_bound (y + x)) as Hp. rewrite cos_plus in Hp.
  assert (Ht : 0 <= s * s <= 1).
  { pose proof (SIN_bound ((lon2 - lon1) * PI / 180 / 2)) as Hs.
    fold s in Hs. split; nra. }
  set (t := s * s) in *.
  replace (cos x * cos y * s * s) with (cos x * cos y * t)
    by (unfold t; ring).
  set (p := cos x * cos y) in *. set (q := sin x * sin y) in *.
  replace (cos y * cos x) with p in * by (unfold p; ring).
  replace (sin y * sin x) with q in * by (unfold q; ring).
  split; nra.
Qed.

Lemma Ratan2_sqrt_asin (a : R) :
  0 <= a <= 1 -> Math.Ratan2 (sqrt a) (sqrt (1 - a)) = asin (sqrt a).
Proof.
  intros [H0 H1]. unfold Math.Ratan2.
  destruct (Req_dec_T a 1) as [-> | Hne].
  - replace (1 - 1) with 0 by lra. rewrite sqrt_0, sqrt_1.
    Rbool. symmetry. apply asin_1.
  - assert (Hpos : 0 < sqrt (1 - a)) by (apply sqrt_lt_R0; lra).
    rewrite Rltb_true by assumption.
    assert (Hlt : sqrt a < 1).
    { rewrite <- sqrt_1. apply sqrt_lt_1_alt. lra. }
    pose proof (sqrt_pos a) as Hge.
    rewrite asin_atan by lra.
    rewrite Rsqr_sqrt by assumption. reflexivity.
Qed.

Lemma haversine_a_textbook (lat1 lon1 lat2 lon2 : R) :
  haversine_a lat1 lon1 lat2 lon2 =
  (sin ((radians lat2 - radians lat1) / 2))² +
  cos (radians lat1) * cos (radians lat2) *
  (sin ((radians lon2 - radians lon1) / 2))².
Proof.
  unfold haversine_a, radians, Rsqr.
  replace ((lat2 * PI / 180 - lat1 * PI / 180) / 2)
    with ((lat2 - lat1) * PI / 180 / 2) by lra.
  replace ((lon2 * PI / 180 - lon1 * PI / 180) / 2)
    with ((lon2 - lon1) * PI / 180 / 2) by lra.
  ring.
Qed.

Lemma Rround_spec (x : R) :
  Math.Rround x - / 2 <= x < Math.Rround x + / 2.
Proof.
  unfold Math.Rround. destruct (base_Int_part (x + / 2)) as [Hlo Hhi]. lra.
Qed.

(** ** Signs *)

Lemma asin_nonneg (x : R) : 0 <= x -> 0 <= asin x.
Proof.
  intros Hx. pose proof PI_RGT_0 as Hpi. unfold asin.
  destruct (Rle_dec x (-1)) as [Hm | _]; [lra |].
  destruct (Rle_dec 1 x) as [_ | H1]; [lra |].
  assert (Hs : 0 < sqrt (1 - x²)).
  { apply sqrt_lt_R0. unfold Rsqr. nra. }
  assert (Hq : 0 <= x / sqrt (1 - x²)).
  { apply Rmult_le_pos; [assumption |].
    apply Rlt_le, Rinv_0_lt_compat, Hs. }
  destruct Hq as [Hq | <-].
  - apply atan_increasing in Hq. rewrite atan_0 in Hq. lra.
  - rewrite atan_0. lra.
Qed.

Lemma haversine_km_nonneg (lat1 lon1 lat2 lon2 : R) :
  0 <= haversine_km lat1 lon1 lat2 lon2.
Proof.
  unfold haversine_km.
  match goal with
  | |- context [asin ?e] => pose proof (asin_nonneg e (sqrt_pos _)) as Ha
  end.
  cbv zeta. lra.
Qed.

Lemma Rfloor_nonneg (x : R) : 0 <= x -> 0 <= Math.Rfloor x.
Proof.
  intros Hx. pose proof (Rfloor_spec x) as Hf. unfold Math.Rfloor in *.
  apply (IZR_le 0). apply Z.lt_succ_r, lt_IZR.
  replace (Z.succ (Int_part x)) with (Int_part x + 1)%Z by lia.
  rewrite plus_IZR. lra.
Qed.

Lemma Rceil_nonneg (x : R) : 0 <= x -> 0 <= Math.Rceil x.
Proof. intros Hx. pose proof (Rceil_spec x). lra. Qed.

Lemma round_2dp_nonneg (x : R) : 0 <= x -> 0 <= round_2dp x.
Proof.
  intros Hx. unfold round_2dp, Math.Rround.
  assert (H : 0 <= Math.Rfloor (x * 100 + / 2)) by (apply Rfloor_nonneg; lra).
  unfold Math.Rfloor in H. lra.
Qed.

Lemma roundDistance_nonneg (x : R) :
  0 <= x -> nonneg (roundDistance (VNumber (Fin x))).
Proof.
  intros Hx. unfold nonneg.
  destruct (roundDistance_floor_or_ceil x) as [-> | ->]; simpl;
    apply Rleb_true; [apply Rfloor_nonneg | apply Rceil_nonneg]; assumption.
Qed.

(** Evaluate arithmetic on finite numbers, deciding the comparisons on the
    way. *)
Ltac num_eval := repeat (progress (simpl; Rbool)).

Section Properties.

Set Warnings "-notation-for-abbreviation".

Variable StringToNumber : string -> number.
Variable StringToFloat : string -> number.

Local Notation ToNumber := (ToNumber StringToNumber).
Local Notation calculateDistance := (calculateDistance StringToNumber).
Local Notation reconcile := (reconcile StringToNumber).
Local Notation reconcile_fields := (reconcile_fields StringToNumber).
Local Notation api_trip_end := (api_trip_end StringToNumber).
Local Notation api_odometer := (api_odometer StringToNumber StringToFloat).
Local Notation handle := (handle StringToNumber StringToFloat).
Local Notation serve := (serve StringToNumber StringToFloat).

(** *** [calculateDistance] *)

(** On finite coordinates the code computes the textbook Haversine distance,
    rounded to the hundredth. *)
Lemma calculateDistance_finite (lat1 lon1 lat2 lon2 : R) :
  calculateDistance (VNumber (Fin lat1)) (VNumber (Fin lon1))
                    (VNumber (Fin lat2)) (VNumber (Fin lon2)) =
  Fin (round_2dp (haversine_km lat1 lon1 lat2 lon2)).
Proof.
  pose proof (haversine_a_bounds lat1 lon1 lat2 lon2) as Hb.
  unfold calculateDistance. cbn [ToNumber].
  match goal with
  | |- context [Math.sqrt ?e] =>
      assert (Ha : e = Fin (haversine_a lat1 lon1 lat2 lon2))
  end.
  { num_eval. apply Fin_eq. unfold haversine_a. reflexivity. }
  rewrite Ha. num_eval.
  change (1 + - haversine_a lat1 lon1 lat2 lon2)
    with (1 - haversine_a lat1 lon1 lat2 lon2).
  rewrite (Ratan2_sqrt_asin _ Hb).
  apply Fin_eq. unfold round_2dp, haversine_km.
  rewrite <- haversine_a_textbook. f_equal. f_equal. ring.
Qed.

Lemma calculateDistance_symmetric (lat1 lon1 lat2 lon2 : JSValue) :
  calculateDistance lat1 lon1 lat2 lon2 = calculateDistance lat2 lon2 lat1 lon1.
Proof.
  unfold calculateDistance.
  rewrite (sub_antisym (ToNumber lat1) (ToNumber lat2)).
  rewrite (sub_antisym (ToNumber lon1) (ToNumber lon2)).
  rewrite !half_angle_sin_odd.
  rewrite !mul_neg_neg, !mul_mul_neg.
  rewrite (mul_comm (Math.cos (Num.div (Num.mul (ToNumber lat2) Math.PI)
                                       (Fin 180)))).
  reflexivity.
Qed.

Lemma haversine_km_self (lat lon : R) : haversine_km lat lon lat lon = 0.
Proof.
  unfold haversine_km.
  replace ((radians lat - radians lat) / 2) with 0 by lra.
  replace ((radians lon - radians lon) / 2) with 0 by lra.
  rewrite sin_0. unfold Rsqr.
  replace (0 * 0 + cos (radians lat) * cos (radians lat) * (0 * 0))
    with 0 by ring.
  rewrite sqrt_0, asin_0. ring.
Qed.

Lemma round_2dp_0 : round_2dp 0 = 0.
Proof.
  unfold round_2dp, Math.Rround.
  rewrite <- (Int_part_spec (0 * 100 + / 2) 0) by lra. lra.
Qed.

(** C9, within the range of the doubles: the distance does not depend on the
    order of the two points, and from a point to itself it is 0 as long as
    the latitude is small enough for its product with [Math.PI] not to
    overflow. *)
Theorem calculateDistance_symmetric_and_zero_on_self :
  (forall lat1 lon1 lat2 lon2 : JSValue,
      calculateDistance lat1 lon1 lat2 lon2 =
      calculateDistance lat2 lon2 lat1 lon1) /\
  (forall lat lon : R,
      Rabs lat <= 5e307 ->
      calculateDistance (VNumber (Fin lat)) (VNumber (Fin lon))
                        (VNumber (Fin lat)) (VNumber (Fin lon)) = Fin 0).
Proof.
  split.
  - apply calculateDistance_symmetric.
  - intros lat lon _.
    rewrite calculateDistance_finite, haversine_km_self, round_2dp_0.
    reflexivity.
Qed.

(** A coordinate that is not a finite number turns the distance into NaN. *)
Lemma calculateDistance_NaN_or_finite (lat1 lon1 lat2 lon2 : JSValue) :
  calculateDistance lat1 lon1 lat2 lon2 = NaN \/
  exists a b c d : R,
    calculateDistance lat1 lon1 lat2 lon2 =
    Fin (round_2dp (haversine_km a b c d)).
Proof.
  change (calculateDistance lat1 lon1 lat2 lon2)
    with (calculateDistance (VNumber (ToNumber lat1)) (VNumber (ToNumber lon1))
                            (VNumber (ToNumber lat2)) (VNumber (ToNumber lon2))).
  generalize (ToNumber lat1), (ToNumber lon1), (ToNumber lat2), (ToNumber lon2).
  intros n1 n2 n3 n4.
  destruct (is_finite n1) eqn:F1.
  2:{ left. unfold calculateDistance. cbn [ToNumber].
      rewrite (cos_nonfinite (Num.div (Num.mul n1 Math.PI) (Fin 180)))
        by (apply div_nonfinite_l, mul_nonfinite_l, F1).
      rewrite !mul_NaN_l, !add_NaN_r. reflexivity. }
  destruct (is_finite n3) eqn:F3.
  2:{ left. unfold calculateDistance. cbn [ToNumber].
      rewrite (cos_nonfinite (Num.div (Num.mul n3 Math.PI) (Fin 180)))
        by (apply div_nonfinite_l, mul_nonfinite_l, F3).
      rewrite !mul_NaN_r, !mul_NaN_l, !add_NaN_r. reflexivity. }
  assert (Hlon : is_finite (Num.sub n4 n2) = false ->
                 calculateDistance (VNumber n1) (VNumber n2)
                                   (VNumber n3) (VNumber n4) = NaN).
  { intros F. unfold calculateDistance. cbn [ToNumber].
    rewrite (sin_nonfinite
               (Num.div (Num.div (Num.mul (Num.sub n4 n2) Math.PI) (Fin 180))
                        (Fin 2)))
      by (apply div_nonfinite_l, div_nonfinite_l, mul_nonfinite_l, F).
    rewrite !mul_NaN_r, !add_NaN_r. reflexivity. }
  destruct (is_finite n2) eqn:F2.
  2:{ left. apply Hlon, sub_nonfinite_r, F2. }
  destruct (is_finite n4) eqn:F4.
  2:{ left. apply Hlon, sub_nonfinite_l, F4. }
  right.
  destruct (is_finite_Fin _ F1) as [a ->], (is_finite_Fin _ F2) as [b ->],
           (is_finite_Fin _ F3) as [c ->], (is_finite_Fin _ F4) as [d ->].
  exists a, b, c, d. apply calculateDistance_finite.
Qed.

Lemma straightLine_rounded_nonneg (lat1 lon1 lat2 lon2 : JSValue) :
  nonneg (roundDistance (VNumber (calculateDistance lat1 lon1 lat2 lon2))).
Proof.
  destruct (calculateDistance_NaN_or_finite lat1 lon1 lat2 lon2)
    as [-> | [a [b [c [d ->]]]]].
  - unfold nonneg. simpl. apply Rleb_true. lra.
  - apply roundDistance_nonneg, round_2dp_nonneg, haversine_km_nonneg.
Qed.

(** *** The three branches of the priority chain *)

Lemma reconcile_odometer_branch trip odo body :
  provided (Body.userProvidedEndOdometer body) = true ->
  reconcile trip odo body =
  {| straightLineDistance :=
       calculateDistance (startLatitude trip) (startLongitude trip)
                         (Body.latitude body) (Body.longitude body);
     finalDistance := Body.actualTravelledDistance body;
     distanceSource := "odometer reading";
     roundedDistance := roundDistance (Body.actualTravelledDistance body);
     newEndOdometer := roundDistance (Body.userProvidedEndOdometer body) |}.
Proof.
  intros Hp. unfold reconcile. rewrite Hp. reflexivity.
Qed.

Lemma reconcile_gps_branch trip odo body :
  provided (Body.userProvidedEndOdometer body) = false ->
  ToBoolean (Body.gpsDistance body)
    && Num.gt (ToNumber (Body.gpsDistance body)) (Fin 0.01) = true ->
  reconcile trip odo body =
  {| straightLineDistance :=
       calculateDistance (startLatitude trip) (startLongitude trip)
                         (Body.latitude body) (Body.longitude body);
     finalDistance := Body.gpsDistance body;
     distanceSource := "GPS tracking";
     roundedDistance := roundDistance (Body.gpsDistance body);
     newEndOdometer :=
       roundDistance
         (VNumber (Num.add odo (roundDistance (Body.gpsDistance body)))) |}.
Proof.
  intros Hp Hg. unfold reconcile. rewrite Hp, Hg. reflexivity.
Qed.

Lemma reconcile_fallback_branch trip odo body :
  provided (Body.userProvidedEndOdometer body) = false ->
  ToBoolean (Body.gpsDistance body)
    && Num.gt (ToNumber (Body.gpsDistance body)) (Fin 0.01) = false ->
  let d := calculateDistance (startLatitude trip) (startLongitude trip)
                             (Body.latitude body) (Body.longitude body) in
  reconcile trip odo body =
  {| straightLineDistance := d;
     finalDistance := VNumber d;
     distanceSource := "straight-line calculation";
     roundedDistance := roundDistance (VNumber d);
     newEndOdometer :=
       roundDistance (VNumber (Num.add odo (roundDistance (VNumber d)))) |}.
Proof.
  intros Hp Hg. unfold reconcile. rewrite Hp, Hg. reflexivity.
Qed.

(** A number above 0.01 passes the GPS guard. *)
Lemma gps_guard_number (n : number) :
  Num.gt n (Fin 0.01) = true ->
  ToBoolean (VNumber n) && Num.gt (ToNumber (VNumber n)) (Fin 0.01) = true.
Proof.
  intros Hn. cbn [ToNumber]. rewrite Hn, andb_true_r.
  destruct n as [ | s | x]; try discriminate; try reflexivity.
  cbn in *. unfold Rltb in Hn. destruct (Rlt_dec 0.01 x); [| discriminate].
  Rbool. reflexivity.
Qed.


Lemma roundedDistance_reconcile trip odo body :
  roundedDistance (reconcile trip odo body) =
  roundDistance (finalDistance (reconcile trip odo body)).
Proof.
  unfold reconcile.
  destruct (provided (Body.userProvidedEndOdometer body)); [reflexivity |].
  destruct (ToBoolean (Body.gpsDistance body)
            && Num.gt (ToNumber (Body.gpsDistance body)) (Fin 0.01));
    reflexivity.
Qed.

Lemma newEndOdometer_reconcile trip odo body :
  newEndOdometer (reconcile trip odo body) =
  if provided (Body.userProvidedEndOdometer body)
  then roundDistance (Body.userProvidedEndOdometer body)
  else roundDistance
         (VNumber (Num.add odo (roundedDistance (reconcile trip odo body)))).
Proof.
  unfold reconcile.
  destruct (provided (Body.userProvidedEndOdometer body)); [reflexivity |].
  destruct (ToBoolean (Body.gpsDistance body)
            && Num.gt (ToNumber (Body.gpsDistance body)) (Fin 0.01));
    reflexivity.
Qed.

(** C6: the new odometer is the rounded end odometer of the request when
    there is one, and the rounded sum of the current odometer and the rounded
    distance otherwise. *)
Theorem newEndOdometer_rule trip odo body :
  (provided (Body.userProvidedEndOdometer body) = true ->
   newEndOdometer (reconcile trip odo body) =
   roundDistance (Body.userProvidedEndOdometer body)) /\
  (provided (Body.userProvidedEndOdometer body) = false ->
   newEndOdometer (reconcile trip odo body) =
   roundDistance
     (VNumber (Num.add odo (roundedDistance (reconcile trip odo body))))) /\
  roundedDistance (reconcile trip odo body) =
  roundDistance (finalDistance (reconcile trip odo body)).
Proof.
  split; [| split].
  - intros Hp. rewrite newEndOdometer_reconcile, Hp. reflexivity.
  - intros Hp. rewrite newEndOdometer_reconcile, Hp. reflexivity.
  - apply roundedDistance_reconcile.
Qed.

(** C3: an end odometer in the request selects the odometer-reading branch
    whatever the GPS distance is; so with 50 and 10. *)
Theorem odometer_reading_has_priority :
  (forall trip odo latitude longitude gpsDistance actualTravelledDistance
          userProvidedEndOdometer,
      provided userProvidedEndOdometer = true ->
      distanceSource
        (reconcile trip odo
           {| Body.latitude := latitude;
              Body.longitude := longitude;
              Body.gpsDistance := gpsDistance;
              Body.actualTravelledDistance := actualTravelledDistance;
              Body.userProvidedEndOdometer := userProvidedEndOdometer |}) =
      "odometer reading"%string) /\
  (forall trip odo latitude longitude actualTravelledDistance,
      distanceSource
        (reconcile trip odo
           {| Body.latitude := latitude;
              Body.longitude := longitude;
              Body.gpsDistance := VNumber (Fin 10);
              Body.actualTravelledDistance := actualTravelledDistance;
              Body.userProvidedEndOdometer := VNumber (Fin 50) |}) <>
      "GPS tracking"%string).
Proof.
  split.
  - intros trip odo lat lon gps atd upe Hp.
    rewrite reconcile_odometer_branch by exact Hp. reflexivity.
  - intros trip odo lat lon atd.
    rewrite reconcile_odometer_branch by reflexivity. discriminate.
Qed.

(** A GPS distance that is missing, or a number not above 0.01, fails the GPS
    guard. *)
Lemma gps_guard_absent_or_small (gps : JSValue) :
  gps = VUndefined \/ gps = VNull \/
  (exists n, gps = VNumber n /\ Num.gt n (Fin 0.01) = false) ->
  ToBoolean gps && Num.gt (ToNumber gps) (Fin 0.01) = false.
Proof.
  intros [-> | [-> | [n [-> Hn]]]]; try reflexivity.
  cbn [ToNumber]. rewrite Hn. apply andb_false_r.
Qed.


(** *** Fields that cannot be converted *)

Lemma reconcile_fields_converts trip odo body :
  reconcile_fields trip odo (fields_of body) =
  Ok {| Raw.distanceSource := distanceSource (reconcile trip odo body);
        Raw.roundedDistance := roundedDistance (reconcile trip odo body);
        Raw.newEndOdometer := newEndOdometer (reconcile trip odo body) |}.
Proof.
  unfold reconcile_fields, reconcile, fields_of.
  cbn [Raw.latitude Raw.longitude Raw.gpsDistance Raw.actualTravelledDistance
       Raw.userProvidedEndOdometer provided_field roundDistance_field].
  destruct (provided (Body.userProvidedEndOdometer body)); [reflexivity |].
  destruct (ToBoolean (Body.gpsDistance body)
            && Num.gt (ToNumber (Body.gpsDistance body)) (Fin 0.01));
    reflexivity.
Qed.

Lemma roundDistance_field_never_NaN (value : Field) :
  is_nan (roundDistance_field value) = false.
Proof.
  destruct value; [apply roundDistance_never_NaN | reflexivity].
Qed.

Lemma reconcile_fields_Ok trip odo body r :
  reconcile_fields trip odo body = Ok r ->
  is_nan (Raw.roundedDistance r) = false /\
  is_nan (Raw.newEndOdometer r) = false.
Proof.
  unfold reconcile_fields.
  destruct (Raw.latitude body) as [latitude |]; [| discriminate].
  destruct (Raw.longitude body) as [longitude |]; [| discriminate].
  destruct (provided_field (Raw.userProvidedEndOdometer body)).
  - intros H. injection H as <-. cbn [Raw.roundedDistance Raw.newEndOdometer].
    split; apply roundDistance_field_never_NaN.
  - destruct (Raw.gpsDistance body) as [gpsDistance |]; [| discriminate].
    destruct (ToBoolean gpsDistance && Num.gt (ToNumber gpsDistance) (Fin 0.01));
      intros H; injection H as <-; split;
      first [ exact (roundDistance_never_NaN gpsDistance)
            | exact (roundDistance_never_NaN (VNumber _)) ].
Qed.

Lemma reconcile_fields_throws trip odo body :
  (exists status error, reconcile_fields trip odo body = Err status error) <->
  Raw.latitude body = Unconvertible \/
  Raw.longitude body = Unconvertible \/
  (provided_field (Raw.userProvidedEndOdometer body) = false /\
   Raw.gpsDistance body = Unconvertible).
Proof.
  unfold reconcile_fields.
  destruct (Raw.latitude body) as [latitude |].
  2:{ split; [intros _; left; reflexivity |].
      intros _. destruct (Raw.longitude body); eexists; eexists; reflexivity. }
  destruct (Raw.longitude body) as [longitude |].
  2:{ split; [intros _; right; left; reflexivity |].
      intros _. eexists; eexists; reflexivity. }
  destruct (provided_field (Raw.userProvidedEndOdometer body)).
  { split.
    - intros [status [error H]]. discriminate H.
    - intros [H | [H | [H _]]]; discriminate H. }
  destruct (Raw.gpsDistance body) as [gpsDistance |].
  - split.
    + intros [status [error H]].
      destruct (ToBoolean gpsDistance
                && Num.gt (ToNumber gpsDistance) (Fin 0.01)); discriminate H.
    + intros [H | [H | [_ H]]]; discriminate H.
  - split.
    + intros _. right. right. split; reflexivity.
    + intros _. eexists; eexists; reflexivity.
Qed.


(** *** Finalized trips *)

Lemma gps_rounded_nonneg (gps : JSValue) :
  ToBoolean gps && Num.gt (ToNumber gps) (Fin 0.01) = true ->
  nonneg (roundDistance gps).
Proof.
  intros Hg. apply andb_prop in Hg. destruct Hg as [Ht Hg].
  assert (H0 : nonneg (Fin 0)) by (apply Rleb_true; lra).
  destruct gps as [ | | b | [ | s | x] | str | str ]; try exact H0;
    cbn [ToNumber] in Hg; try discriminate.
  - destruct s; [discriminate | reflexivity].
  - apply roundDistance_nonneg.
    cbn in Hg. unfold Rltb in Hg. destruct (Rlt_dec 0.01 x); [lra | discriminate].
Qed.

Lemma roundedDistance_nonneg trip odo body :
  provided (Body.userProvidedEndOdometer body) = false ->
  nonneg (roundedDistance (reconcile trip odo body)).
Proof.
  intros Hp.
  destruct (ToBoolean (Body.gpsDistance body)
            && Num.gt (ToNumber (Body.gpsDistance body)) (Fin 0.01)) eqn:Hc.
  - rewrite (reconcile_gps_branch _ _ _ Hp Hc). apply gps_rounded_nonneg, Hc.
  - rewrite (reconcile_fallback_branch _ _ _ Hp Hc).
    apply straightLine_rounded_nonneg.
Qed.

(** What the handler answers when it answers with a trip. *)
Lemma api_trip_end_Ok userData body completedTrip userData' :
  api_trip_end userData body = Ok (completedTrip, userData') ->
  exists trip,
    activeTrip userData = Some trip /\
    Completed.trip completedTrip = trip /\
    Completed.totalDistance completedTrip =
      roundedDistance (reconcile trip (currentOdometer userData) body) /\
    Completed.endOdometer completedTrip =
      newEndOdometer (reconcile trip (currentOdometer userData) body) /\
    Completed.distanceSource completedTrip =
      distanceSource (reconcile trip (currentOdometer userData) body) /\
    userData' = {| currentOdometer := Completed.endOdometer completedTrip;
                   activeTrip := None |}.
Proof.
  unfold api_trip_end.
  destruct (negb (ToBoolean (Body.latitude body))
            || negb (ToBoolean (Body.longitude body))); [discriminate |].
  destruct (activeTrip userData) as [trip |]; [| discriminate].
  intros H. injection H as <- <-. exists trip.
  repeat split; reflexivity.
Qed.

Lemma add_whole_rounded (odo d : number) :
  is_whole odo -> nonneg d ->
  is_whole d \/ (exists s, d = Inf s) ->
  roundDistance (VNumber (Num.add odo d)) = Num.add odo d.
Proof.
  intros [a ->] Hd [[b ->] | [s ->]].
  - simpl. rewrite <- plus_IZR. apply roundDistance_IZR.
  - simpl. apply roundDistance_Inf.
Qed.

(** C7, as the handlers have it: a trip ended without an end odometer in the
    request has a non-negative total distance, and its end odometer is the
    rounded sum of the user's current odometer and that distance; the sum
    needs no rounding, and starts from the trip's start odometer, when the
    current odometer is still the start odometer and a whole number.  The
    start odometer is the current odometer at the start of the trip. *)
Theorem finalized_trip_without_end_odometer userData body completedTrip userData' :
  api_trip_end userData body = Ok (completedTrip, userData') ->
  provided (Body.userProvidedEndOdometer body) = false ->
  nonneg (Completed.totalDistance completedTrip) /\
  Completed.endOdometer completedTrip =
    roundDistance
      (VNumber (Num.add (currentOdometer userData)
                        (Completed.totalDistance completedTrip))) /\
  (currentOdometer userData = startOdometer (Completed.trip completedTrip) ->
   is_whole (startOdometer (Completed.trip completedTrip)) ->
   Completed.endOdometer completedTrip =
   Num.add (startOdometer (Completed.trip completedTrip))
           (Completed.totalDistance completedTrip)) /\
  (forall before latitude longitude,
      api_trip_start before latitude longitude = Ok userData ->
      startOdometer (Completed.trip completedTrip) = currentOdometer before).
Proof.
  intros Hend Hp.
  destruct (api_trip_end_Ok _ _ _ _ Hend)
    as [trip [Hactive [Htrip [Htotal [Hodo [_ _]]]]]].
  assert (Hnn : nonneg (Completed.totalDistance completedTrip)).
  { rewrite Htotal. apply roundedDistance_nonneg, Hp. }
  assert (Hsum : Completed.endOdometer completedTrip =
                 roundDistance
                   (VNumber (Num.add (currentOdometer userData)
                                     (Completed.totalDistance completedTrip)))).
  { rewrite Hodo, Htotal, newEndOdometer_reconcile, Hp. reflexivity. }
  split; [exact Hnn | split; [exact Hsum | split]].
  - intros Hsame Hwhole. rewrite Hsum, Hsame.
    apply add_whole_rounded; [exact Hwhole | exact Hnn |].
    rewrite Htotal, roundedDistance_reconcile.
    destruct (roundDistance_whole_or_Inf
                (finalDistance (reconcile trip (currentOdometer userData) body)))
      as [Hw | [s [_ Hs]]]; [left; exact Hw | right; exists s; exact Hs].
  - intros before lat lon Hstart. rewrite Htrip.
    unfold api_trip_start in Hstart.
    destruct (negb (ToBoolean lat) || negb (ToBoolean lon)); [discriminate |].
    destruct (activeTrip before); [discriminate |].
    injection Hstart as <-. cbn in Hactive. injection Hactive as <-.
    reflexivity.
Qed.

(** Every trip of the collection has a whole total distance, or an infinite
    one. *)
Lemma served_trips_whole_or_Inf (requests : list Request) :
  forall completedTrip,
    In completedTrip (trips (serve requests)) ->
    is_whole (Completed.totalDistance completedTrip) \/
    exists s, Completed.totalDistance completedTrip = Inf s.
Proof.
  unfold serve.
  enough (Hgen : forall s0,
             (forall t, In t (trips s0) ->
                        is_whole (Completed.totalDistance t) \/
                        exists s, Completed.totalDistance t = Inf s) ->
             forall t, In t (trips (fold_left handle requests s0)) ->
                       is_whole (Completed.totalDistance t) \/
                       exists s, Completed.totalDistance t = Inf s).
  { apply Hgen. intros t []. }
  induction requests as [| rq requests IH]; intros s0 Hs0; [exact Hs0 |].
  cbn [fold_left]. apply IH. intros t Ht.
  destruct rq as [odometer | lat lon | body]; cbn [handle] in Ht.
  - destruct (api_odometer (userData s0) odometer); apply Hs0, Ht.
  - destruct (api_trip_start (userData s0) lat lon); apply Hs0, Ht.
  - destruct (api_trip_end (userData s0) body) as [[ct u] | code msg] eqn:He;
      [| apply Hs0, Ht].
    cbn [trips] in Ht. apply in_app_or in Ht.
    destruct Ht as [Ht | [<- | []]]; [apply Hs0, Ht |].
    destruct (api_trip_end_Ok _ _ _ _ He) as [trip [_ [_ [Htotal _]]]].
    rewrite Htotal, roundedDistance_reconcile.
    destruct (roundDistance_whole_or_Inf
                (finalDistance
                   (reconcile trip (currentOdometer (userData s0)) body)))
      as [Hw | [s [_ Hs]]]; [left; exact Hw | right; exists s; exact Hs].
Qed.

(** C10, as the code has it: on a finite number [roundDistance] returns an
    integer, the floor or the ceiling of its argument, and rounding again
    changes nothing; so the total distance of a finalized trip is a whole
    number unless the chosen distance was an infinity, which is then the
    total distance. *)
Theorem roundDistance_integer_idempotent :
  (forall x : R,
      is_whole (roundDistance (VNumber (Fin x))) /\
      (roundDistance (VNumber (Fin x)) = Fin (Math.Rfloor x) \/
       roundDistance (VNumber (Fin x)) = Fin (Math.Rceil x)) /\
      roundDistance (VNumber (roundDistance (VNumber (Fin x)))) =
      roundDistance (VNumber (Fin x))) /\
  (forall requests completedTrip,
      In completedTrip (trips (serve requests)) ->
      is_whole (Completed.totalDistance completedTrip) \/
      exists s, Completed.totalDistance completedTrip = Inf s) /\
  (forall userData body completedTrip userData',
      api_trip_end userData body = Ok (completedTrip, userData') ->
      (forall s,
          finalDistance
            (reconcile (Completed.trip completedTrip)
                       (currentOdometer userData) body) <> VNumber (Inf s)) ->
      is_whole (Completed.totalDistance completedTrip)) /\
  (forall userData body completedTrip userData' s,
      api_trip_end userData body = Ok (completedTrip, userData') ->
      finalDistance
        (reconcile (Completed.trip completedTrip)
                   (currentOdometer userData) body) = VNumber (Inf s) ->
      Completed.totalDistance completedTrip = Inf s).
Proof.
  split; [| split; [| split]].
  - intros x. split; [apply roundDistance_Fin_whole | split].
    + apply roundDistance_floor_or_ceil.
    + apply roundDistance_idempotent.
  - apply served_trips_whole_or_Inf.
  - intros u body ct u' Hend Hfin.
    destruct (api_trip_end_Ok _ _ _ _ Hend)
      as [trip [_ [Htrip [Htotal _]]]].
    rewrite Htrip in Hfin. rewrite Htotal, roundedDistance_reconcile.
    destruct (roundDistance_whole_or_Inf
                (finalDistance (reconcile trip (currentOdometer u) body)))
      as [Hw | [s [Hs _]]]; [exact Hw |].
    exfalso. apply (Hfin s), Hs.
  - intros u body ct u' s Hend Hinf.
    destruct (api_trip_end_Ok _ _ _ _ Hend)
      as [trip [_ [Htrip [Htotal _]]]].
    rewrite Htrip in Hinf.
    rewrite Htotal, roundedDistance_reconcile, Hinf.
    apply roundDistance_Inf.
Qed.

End Properties.

(** ** The theorems at sample requests *)

Arguments roundDistance : simpl never.
Arguments calculateDistance : simpl never.

(** Run a handler on a sample request. *)
Ltac run_handler :=
  unfold Sample.user, Sample.trip, Sample.body, Sample.start, Sample.completed,
         Sample.num, PInf, serve, initial, handle,
         api_odometer, api_trip_start, api_trip_end, reconcile, isNaN, js_or;
  repeat (progress (num_eval; repeat rewrite <- plus_IZR;
                    rewrite ?roundDistance_IZR, ?roundDistance_Inf)).

Lemma roundDistance_105_7 : roundDistance (VNumber (Fin (100.7 + 5))) = Fin 106.
Proof.
  rewrite roundDistance_Fin.
  rewrite (Rfloor_unique (100.7 + 5) 105) by lra.
  rewrite (Rceil_unique (100.7 + 5) 106) by lra.
  Rbool. reflexivity.
Qed.

(** A trip of 5 km by GPS, from an odometer of 100. *)
Lemma sample_gps_trip :
  api_trip_end Sample.engine (Sample.user 100)
               (Sample.body (Sample.num 5) VUndefined VUndefined) =
  Ok (Sample.completed 100 (Sample.num 5) (Fin 105) (Fin 5) "GPS tracking",
      {| currentOdometer := Fin 105; activeTrip := None |}).
Proof. run_handler. reflexivity. Qed.

Lemma sample_gps_distance :
  finalDistance
    (reconcile Sample.engine (Sample.trip 100) (Fin 100)
               (Sample.body (Sample.num 5) VUndefined VUndefined)) =
  Sample.num 5.
Proof.
  rewrite reconcile_gps_branch; [reflexivity | reflexivity |].
  apply gps_guard_number. apply Rltb_true. lra.
Qed.

(** C1 is what the handler's own comment announces, "calculate distance from
    odometer difference", and not what the next line does: with a start
    odometer of 10, an end odometer of 50 and an [actualTravelledDistance] of
    7 in the request, the distance is 7 and not 50 - 10. *)
Lemma odometer_distance_is_not_the_difference :
  finalDistance
    (reconcile Sample.engine (Sample.trip 10) (Fin 10)
               (Sample.body (Sample.num 10) (Sample.num 7) (Sample.num 50))) =
  VNumber (Fin 7) /\
  finalDistance
    (reconcile Sample.engine (Sample.trip 10) (Fin 10)
               (Sample.body (Sample.num 10) (Sample.num 7) (Sample.num 50))) <>
  VNumber (Num.sub (ToNumber Sample.engine (Sample.num 50)) (Fin 10)).
Proof.
  split; [reflexivity |].
  cbn. intros H. injection H as H. lra.
Qed.

Lemma roundDistance_midpoint_down_witness :
  (2.25 - Math.Rfloor 2.25 <= 0.5 /\
   roundDistance (VNumber (Fin 2.25)) = Fin (Math.Rfloor 2.25)) /\
  (2.75 <> above_minus_half /\
   ~ 2.75 - Math.Rfloor 2.75 <= 0.5 /\
   roundDistance (VNumber (Fin 2.75)) = Fin (Math.Rceil 2.75)).
Proof.
  assert (H1 : 2.25 - Math.Rfloor 2.25 <= 0.5).
  { rewrite (Rfloor_unique 2.25 2) by lra. lra. }
  assert (H2 : ~ 2.75 - Math.Rfloor 2.75 <= 0.5).
  { rewrite (Rfloor_unique 2.75 2) by lra. lra. }
  assert (H3 : 2.75 <> above_minus_half).
  { unfold above_minus_half. lra. }
  split; [split | split; [| split]]; try assumption.
  - exact (proj1 roundDistance_midpoint_down 2.25 H1).
  - exact (proj1 (proj2 roundDistance_midpoint_down) 2.75 H3 H2).
Defined.

(** C2 fails at one double.  The fractional part of -0.49999999999999994 is
    0.5 + 2^-54, above 0.5, and its ceiling is 0; but the double nearest to
    that fractional part is 0.5 itself, so the test [decimal <= 0.5] passes
    and [roundDistance] returns the floor, -1. *)
Lemma roundDistance_floor_above_half :
  Double.to_number Double.above_minus_half = Fin above_minus_half /\
  ~ above_minus_half - Math.Rfloor above_minus_half <= 0.5 /\
  Math.Rceil above_minus_half = 0 /\
  Double.sub Double.above_minus_half (Double.floor Double.above_minus_half) =
    Double.ratio 1 2 /\
  Double.roundDistance Double.above_minus_half = Double.int (-1) /\
  Double.to_number (Double.roundDistance Double.above_minus_half) = Fin (-1).
Proof.
  assert (Hfloor : Math.Rfloor above_minus_half = -1).
  { apply (Rfloor_unique above_minus_half (-1)). unfold above_minus_half. lra. }
  split; [| split; [| split; [| split; [| split]]]].
  - unfold Double.above_minus_half, Double.to_number, Double.to_R.
    cbn [Z.leb Z.compare Z.opp].
    change (2 ^ 54)%Z with 18014398509481984%Z.
    apply Fin_eq. unfold above_minus_half. lra.
  - rewrite Hfloor. unfold above_minus_half. lra.
  - apply (Rceil_unique above_minus_half 0). unfold above_minus_half. lra.
  - vm_compute. reflexivity.
  - vm_compute. reflexivity.
  - replace (Double.roundDistance Double.above_minus_half)
      with (S754_finite true 4503599627370496 (-52))
      by (vm_compute; reflexivity).
    unfold Double.to_number, Double.to_R. cbn [Z.leb Z.compare Z.opp].
    change (2 ^ 52)%Z with 4503599627370496%Z.
    apply Fin_eq. lra.
Qed.

Lemma odometer_reading_has_priority_witness :
  provided (Sample.num 50) = true /\
  distanceSource
    (reconcile Sample.engine (Sample.trip 0) (Fin 0)
               (Sample.body (Sample.num 10) VUndefined (Sample.num 50))) =
  "odometer reading"%string.
Proof.
  split; [reflexivity |].
  apply (proj1 (odometer_reading_has_priority Sample.engine)). reflexivity.
Defined.



(** Whatever the engine's sine, cosine and arc tangent are, a latitude of
    [1e308] overflows: its product with [Math.PI] is [Infinity], whose cosine
    is NaN. *)
Lemma calculateDistance_overflow engine_sin engine_cos engine_atan2 :
  Double.calculateDistance engine_sin engine_cos engine_atan2
    Double.ten_to_308 (Double.int 1) Double.ten_to_308 (Double.int 1) =
  S754_nan.
Proof. vm_compute. reflexivity. Qed.


Lemma newEndOdometer_rule_witness :
  (provided (Sample.num 50) = true /\
   newEndOdometer
     (reconcile Sample.engine (Sample.trip 10) (Fin 10)
                (Sample.body (Sample.num 10) (Sample.num 7) (Sample.num 50))) =
   roundDistance (Sample.num 50)) /\
  (provided VUndefined = false /\
   newEndOdometer
     (reconcile Sample.engine (Sample.trip 100) (Fin 100)
                (Sample.body (Sample.num 5) VUndefined VUndefined)) =
   roundDistance
     (VNumber
        (Num.add (Fin 100)
           (roundedDistance
              (reconcile Sample.engine (Sample.trip 100) (Fin 100)
                 (Sample.body (Sample.num 5) VUndefined VUndefined)))))).
Proof.
  split; (split; [reflexivity |]).
  - apply (proj1 (newEndOdometer_rule
                    Sample.engine (Sample.trip 10) (Fin 10)
                    (Sample.body (Sample.num 10) (Sample.num 7)
                                 (Sample.num 50)))).
    reflexivity.
  - apply (proj1 (proj2 (newEndOdometer_rule
                           Sample.engine (Sample.trip 100) (Fin 100)
                           (Sample.body (Sample.num 5) VUndefined VUndefined)))).
    reflexivity.
Defined.

Lemma finalized_trip_without_end_odometer_witness :
  api_trip_end Sample.engine (Sample.user 100)
               (Sample.body (Sample.num 5) VUndefined VUndefined) =
  Ok (Sample.completed 100 (Sample.num 5) (Fin 105) (Fin 5) "GPS tracking",
      {| currentOdometer := Fin 105; activeTrip := None |}) /\
  provided VUndefined = false /\
  nonneg (Fin 5) /\
  Fin 105 = roundDistance (VNumber (Num.add (Fin 100) (Fin 5))) /\
  Fin 105 = Num.add (Fin 100) (Fin 5).
Proof.
  split; [exact sample_gps_trip | split; [reflexivity |]].
  destruct (finalized_trip_without_end_odometer
              Sample.engine (Sample.user 100)
              (Sample.body (Sample.num 5) VUndefined VUndefined)
              (Sample.completed 100 (Sample.num 5) (Fin 105) (Fin 5)
                                "GPS tracking")
              {| currentOdometer := Fin 105; activeTrip := None |}
              sample_gps_trip eq_refl)
    as [Hnn [Hsum [Hstart _]]].
  split; [exact Hnn | split; [exact Hsum |]].
  apply Hstart; [reflexivity | exists 100%Z; reflexivity].
Defined.

(** C7 fails twice.  An end odometer of 10 sent with an
    [actualTravelledDistance] of -5 finalizes a trip of -5 km.  And after the
    odometer was set to 100.7, a trip of 5 km by GPS, with no end odometer in
    the request, ends at 106 and not at 100.7 + 5. *)
Lemma finalized_trip_negative_or_rounded :
  (trips (serve Sample.engine Sample.engine
            [Sample.start;
             PostTripEnd (Sample.body VUndefined (Sample.num (-5))
                                      (Sample.num 10))]) =
   [Sample.completed 0 (Sample.num 0) (Fin 10) (Fin (-5)) "odometer reading"] /\
   ~ nonneg (Fin (-5))) /\
  (trips (serve Sample.engine Sample.engine
            [PostOdometer (Sample.num 100.7);
             Sample.start;
             PostTripEnd (Sample.body (Sample.num 5) VUndefined VUndefined)]) =
   [Sample.completed 100.7 (Sample.num 5) (Fin 106) (Fin 5) "GPS tracking"] /\
   provided VUndefined = false /\
   Fin 106 <> Num.add (Fin 100.7) (Fin 5)).
Proof.
  split; split.
  - run_handler. reflexivity.
  - unfold nonneg. simpl. rewrite Rleb_false by lra. discriminate.
  - run_handler. rewrite roundDistance_105_7. reflexivity.
  - split; [reflexivity |]. simpl. intros H. injection H as H. lra.
Qed.



Lemma roundDistance_integer_idempotent_witness :
  In (Sample.completed 100 (Sample.num 5) (Fin 105) (Fin 5) "GPS tracking")
     (trips (serve Sample.engine Sample.engine
               [PostOdometer (Sample.num 100); Sample.start;
                PostTripEnd (Sample.body (Sample.num 5) VUndefined
                                         VUndefined)])) /\
  (is_whole (Fin 5) \/ exists s, Fin 5 = Inf s) /\
  is_whole (Fin 5).
Proof.
  assert (Hin : In (Sample.completed 100 (Sample.num 5) (Fin 105) (Fin 5)
                                     "GPS tracking")
                   (trips (serve Sample.engine Sample.engine
                             [PostOdometer (Sample.num 100); Sample.start;
                              PostTripEnd (Sample.body (Sample.num 5) VUndefined
                                                       VUndefined)]))).
  { run_handler. left. reflexivity. }
  destruct (roundDistance_integer_idempotent Sample.engine Sample.engine)
    as [_ [Hserved [Hstep _]]].
  split; [exact Hin | split].
  - exact (Hserved _ _ Hin).
  - apply (Hstep (Sample.user 100)
                 (Sample.body (Sample.num 5) VUndefined VUndefined)
                 (Sample.completed 100 (Sample.num 5) (Fin 105) (Fin 5)
                                   "GPS tracking")
                 {| currentOdometer := Fin 105; activeTrip := None |}
                 sample_gps_trip).
    intros s H. apply (eq_trans (eq_sym sample_gps_distance)) in H.
    discriminate H.
Defined.

Lemma calculateDistance_symmetric_and_zero_on_self_witness :
  Rabs (-33.8688) <= 5e307 /\
  calculateDistance Sample.engine
    (Sample.num (-33.8688)) (Sample.num 151.2093)
    (Sample.num (-33.8688)) (Sample.num 151.2093) = Fin 0.
Proof.
  assert (H : Rabs (-33.8688) <= 5e307).
  { unfold Rabs. destruct (Rcase_abs (-33.8688)); lra. }
  split; [exact H |].
  exact (proj2 (calculateDistance_symmetric_and_zero_on_self Sample.engine)
               (-33.8688) 151.2093 H).
Defined.

(** C9 fails on its second half when the arithmetic overflows: from the
    point of latitude [-1e308] and longitude 2 to itself the code returns
    NaN, which is not 0. *)
Lemma distance_to_itself_overflows :
  Double.calculateDistance Double.sample_sin Double.sample_cos
    Double.sample_atan2
    (SFopp Double.ten_to_308) (Double.int 2)
    (SFopp Double.ten_to_308) (Double.int 2) = S754_nan /\
  Double.to_number S754_nan <> Fin 0.
Proof.
  split; [vm_compute; reflexivity | discriminate].
Qed.

(** C10 fails on its last clause: a GPS distance of [1e999], which
    [JSON.parse] reads as [Infinity], finalizes a trip whose total distance is
    [Infinity]. *)
Lemma finalized_trip_infinite_distance :
  trips (serve Sample.engine Sample.engine
           [Sample.start;
            PostTripEnd (Sample.body (VNumber PInf) VUndefined VUndefined)]) =
  [Sample.completed 0 (VNumber PInf) PInf PInf "GPS tracking"] /\
  ~ is_whole PInf.
Proof.
  split.
  - run_handler. reflexivity.
  - intros [z Hz]. discriminate Hz.
Qed.

(** * Further properties *)

(** ** [roundDistance] on the reals *)

(** The integer below a finite number decides what [roundDistance] returns. *)
Lemma roundDistance_by_floor (x : R) :
  exists k : Z,
    IZR k <= x < IZR k + 1 /\
    ((x - IZR k <= 0.5 /\ roundDistance (VNumber (Fin x)) = Fin (IZR k)) \/
     (0.5 < x - IZR k /\
      roundDistance (VNumber (Fin x)) = Fin (IZR (k + 1)))).
Proof.
  exists (Int_part x). pose proof (Rfloor_spec x) as Hf.
  unfold Math.Rfloor in Hf. split; [exact Hf |].
  rewrite roundDistance_Fin. change (Math.Rfloor x) with (IZR (Int_part x)).
  destruct (Rle_dec (x - IZR (Int_part x)) 0.5) as [Hle | Hgt].
  - left. rewrite Rleb_true by exact Hle. split; [exact Hle | reflexivity].
  - right. rewrite Rleb_false by exact Hgt. split; [lra |]. apply Fin_eq.
    apply Rceil_unique. rewrite plus_IZR. lra.
Qed.

(** X1: rounding moves a distance by half a kilometre at most, down by up to
    0.5 and up by less than 0.5; the one double this leaves out is
    -0.49999999999999994, which the code rounds down to -1. *)
Theorem roundDistance_error_bound (x : R) :
  x <> above_minus_half ->
  exists r : R,
    roundDistance (VNumber (Fin x)) = Fin r /\ - 0.5 <= r - x < 0.5.
Proof.
  intros _.
  destruct (roundDistance_by_floor x) as [k [Hk [[Hle ->] | [Hgt ->]]]].
  - exists (IZR k). split; [reflexivity | lra].
  - exists (IZR (k + 1)). split; [reflexivity |]. rewrite plus_IZR. lra.
Qed.

Lemma roundDistance_monotone_Fin (x y : R) :
  x <= y ->
  Num.le (roundDistance (VNumber (Fin x))) (roundDistance (VNumber (Fin y)))
  = true.
Proof.
  intros Hxy.
  destruct (roundDistance_by_floor x) as [j [Hj Hx]].
  destruct (roundDistance_by_floor y) as [k [Hk Hy]].
  assert (Hjk : (j <= k)%Z).
  { apply Z.lt_succ_r, lt_IZR. unfold Z.succ. rewrite plus_IZR. lra. }
  destruct (Z.eq_dec j k) as [-> | Hne].
  - destruct Hx as [[Hx ->] | [Hx ->]], Hy as [[Hy ->] | [Hy ->]]; simpl;
      apply Rleb_true; rewrite ?plus_IZR; lra.
  - assert (Hlt : IZR (j + 1) <= IZR k) by (apply IZR_le; lia).
    rewrite plus_IZR in Hlt.
    destruct Hx as [[Hx ->] | [Hx ->]], Hy as [[Hy ->] | [Hy ->]]; simpl;
      apply Rleb_true; rewrite ?plus_IZR; lra.
Qed.

(** X2: [roundDistance] preserves the order of numbers, infinities
    included. *)
Theorem roundDistance_monotone (n m : number) :
  Num.le n m = true ->
  Num.le (roundDistance (VNumber n)) (roundDistance (VNumber m)) = true.
Proof.
  intros Hnm.
  destruct n as [ | [] | x], m as [ | [] | y]; try discriminate Hnm;
    rewrite ?roundDistance_Inf; try reflexivity.
  - destruct (roundDistance_by_floor y) as [k [_ [[_ ->] | [_ ->]]]];
      reflexivity.
  - destruct (roundDistance_by_floor x) as [k [_ [[_ ->] | [_ ->]]]];
      reflexivity.
  - apply roundDistance_monotone_Fin.
    simpl in Hnm. unfold Rleb in Hnm.
    destruct (Rle_dec x y); [assumption | discriminate].
Qed.

(** X4: [roundDistance] is [Math.round] except on a fractional part of
    exactly one half, where it is one less, and on the double
    -0.49999999999999994, left out here. *)
Theorem roundDistance_vs_Math_round (x : R) :
  x <> above_minus_half ->
  roundDistance (VNumber (Fin x)) =
  if Reqb (x - Math.Rfloor x) 0.5
  then Num.sub (Math.round (Fin x)) (Fin 1)
  else Math.round (Fin x).
Proof.
  intros _.
  destruct (roundDistance_by_floor x) as [k [Hk Hx]].
  rewrite (Rfloor_unique x k Hk).
  cbn [Math.round Math.lift_int]. unfold Math.Rround.
  destruct (Req_dec_T (x - IZR k) 0.5) as [Hhalf | Hhalf].
  - rewrite Reqb_true by exact Hhalf.
    rewrite <- (Int_part_spec (x + / 2) (k + 1)) by (rewrite plus_IZR; lra).
    destruct Hx as [[_ ->] | [Hx _]]; [| lra].
    cbn. apply Fin_eq. rewrite plus_IZR. lra.
  - rewrite Reqb_false by exact Hhalf.
    destruct Hx as [[Hx ->] | [Hx ->]].
    + rewrite <- (Int_part_spec (x + / 2) k) by lra. reflexivity.
    + rewrite <- (Int_part_spec (x + / 2) (k + 1)) by (rewrite plus_IZR; lra).
      reflexivity.
Qed.

Lemma roundDistance_nonneg_iff (x : R) :
  nonneg (roundDistance (VNumber (Fin x))) <-> - 0.5 < x.
Proof.
  unfold nonneg.
  destruct (roundDistance_by_floor x) as [k [Hk [[Hx ->] | [Hx ->]]]];
    cbn [Num.le]; unfold Rleb.
  - destruct (Rle_dec 0 (IZR k)) as [H0 | H0].
    + split; [intros _; lra | reflexivity].
    + split; [discriminate |]. intros Hx'. exfalso.
      assert (Hk1 : IZR k <= -1).
      { apply (IZR_le k (-1)). apply Z.lt_succ_r, lt_IZR. simpl. lra. }
      lra.
  - destruct (Rle_dec 0 (IZR (k + 1))) as [H0 | H0].
    + split; [intros _ | reflexivity]. rewrite plus_IZR in H0. lra.
    + split; [discriminate |]. intros Hx'. exfalso. apply H0.
      apply (IZR_le 0). apply Z.lt_succ_r, lt_IZR.
      unfold Z.succ. rewrite !plus_IZR. lra.
Qed.

(** ** [calculateDistance] *)

Section MoreProperties.

Set Warnings "-notation-for-abbreviation".

Variable StringToNumber : string -> number.
Variable StringToFloat : string -> number.

Local Notation ToNumber := (ToNumber StringToNumber).
Local Notation calculateDistance := (calculateDistance StringToNumber).
Local Notation reconcile := (reconcile StringToNumber).
Local Notation api_trip_end := (api_trip_end StringToNumber).
Local Notation api_odometer := (api_odometer StringToNumber StringToFloat).
Local Notation handle := (handle StringToNumber StringToFloat).
Local Notation serve := (serve StringToNumber StringToFloat).

Lemma calculateDistance_nonfinite (n1 n2 n3 n4 : number) :
  is_finite n1 && is_finite n2 && is_finite n3 && is_finite n4 = false ->
  calculateDistance (VNumber n1) (VNumber n2) (VNumber n3) (VNumber n4) = NaN.
Proof.
  intros Hf.
  destruct (is_finite n1) eqn:F1.
  2:{ unfold calculateDistance. cbn [ToNumber].
      rewrite (cos_nonfinite (Num.div (Num.mul n1 Math.PI) (Fin 180)))
        by (apply div_nonfinite_l, mul_nonfinite_l, F1).
      rewrite !mul_NaN_l, !add_NaN_r. reflexivity. }
  destruct (is_finite n3) eqn:F3.
  2:{ unfold calculateDistance. cbn [ToNumber].
      rewrite (cos_nonfinite (Num.div (Num.mul n3 Math.PI) (Fin 180)))
        by (apply div_nonfinite_l, mul_nonfinite_l, F3).
      rewrite !mul_NaN_r, !mul_NaN_l, !add_NaN_r. reflexivity. }
  assert (Hlon : is_finite (Num.sub n4 n2) = false ->
                 calculateDistance (VNumber n1) (VNumber n2)
                                   (VNumber n3) (VNumber n4) = NaN).
  { intros F. unfold calculateDistance. cbn [ToNumber].
    rewrite (sin_nonfinite
               (Num.div (Num.div (Num.mul (Num.sub n4 n2) Math.PI) (Fin 180))
                        (Fin 2)))
      by (apply div_nonfinite_l, div_nonfinite_l, mul_nonfinite_l, F).
    rewrite !mul_NaN_r, !add_NaN_r. reflexivity. }
  destruct (is_finite n2) eqn:F2.
  2:{ apply Hlon, sub_nonfinite_r, F2. }
  destruct (is_finite n4) eqn:F4.
  2:{ apply Hlon, sub_nonfinite_l, F4. }
  discriminate Hf.
Qed.

(** X6: a coordinate that does not convert to a finite number, a missing
    one among them, makes the distance NaN. *)
Theorem calculateDistance_NaN (lat1 lon1 lat2 lon2 : JSValue) :
  is_finite (ToNumber lat1) && is_finite (ToNumber lon1)
  && is_finite (ToNumber lat2) && is_finite (ToNumber lon2) = false ->
  calculateDistance lat1 lon1 lat2 lon2 = NaN.
Proof.
  change (calculateDistance lat1 lon1 lat2 lon2)
    with (calculateDistance (VNumber (ToNumber lat1)) (VNumber (ToNumber lon1))
                            (VNumber (ToNumber lat2)) (VNumber (ToNumber lon2))).
  apply calculateDistance_nonfinite.
Qed.

(** ** The handlers *)

(** X9: the total distance of a trip is negative only if the request carried
    an end odometer together with an [actualTravelledDistance] that is a
    number below -0.49, and it is negative whenever that number is -0.5 or
    less. *)
Theorem totalDistance_negative trip odo body :
  (~ nonneg (roundedDistance (reconcile trip odo body)) ->
   provided (Body.userProvidedEndOdometer body) = true /\
   exists n, Body.actualTravelledDistance body = VNumber n /\
             Num.lt n (Fin (- 0.49)) = true) /\
  (provided (Body.userProvidedEndOdometer body) = true ->
   (exists n, Body.actualTravelledDistance body = VNumber n /\
              Num.le n (Fin (- 0.5)) = true) ->
   ~ nonneg (roundedDistance (reconcile trip odo body))).
Proof.
  destruct (provided (Body.userProvidedEndOdometer body)) eqn:Hp.
  2:{ split.
      - intros Hneg. exfalso. apply Hneg, roundedDistance_nonneg, Hp.
      - intros H. discriminate H. }
  rewrite (reconcile_odometer_branch _ _ _ _ Hp). cbn [roundedDistance].
  assert (H0 : nonneg (Fin 0)) by (apply Rleb_true; lra).
  destruct (Body.actualTravelledDistance body)
    as [ | | b | [ | [] | x] | str | str ];
    try (split; [intros Hneg; exfalso; apply Hneg; exact H0
                | intros _ [n [Hn Hle]]; try discriminate Hn;
                  injection Hn as <-; discriminate Hle]).
  - split; [| intros _ _ H; discriminate H].
    intros _. split; [reflexivity |]. eexists. split; reflexivity.
  - split; [intros Hneg; exfalso; apply Hneg; reflexivity |].
    intros _ [n [Hn Hle]]. injection Hn as <-. discriminate Hle.
  - rewrite roundDistance_nonneg_iff. split.
    + intros Hx. split; [reflexivity |]. exists (Fin x).
      split; [reflexivity |]. apply Rltb_true. lra.
    + intros _ [n [Hn Hle]]. injection Hn as <-. cbn in Hle.
      unfold Rleb in Hle. destruct (Rle_dec x (- 0.5)); [lra | discriminate].
Qed.

(** X10: a reading sent to [POST /api/odometer] as a number is accepted
    exactly when it is above 0, [Infinity] included; it then becomes the
    current odometer, and an active trip is left as it is. *)
Theorem api_odometer_number (userData : UserData) (n : number) :
  api_odometer userData (VNumber n) =
  if Num.lt (Fin 0) n
  then Ok {| currentOdometer := n; activeTrip := activeTrip userData |}
  else Err 400 "Valid odometer reading is required".
Proof.
  unfold api_odometer, isNaN. cbn [ToNumber parseFloat ToBoolean].
  destruct n as [ | [] | x]; try reflexivity.
  cbn [is_nan eq_zero orb Num.lt].
  destruct (Rlt_dec 0 x) as [Hpos | Hnpos].
  - rewrite (Rltb_true 0 x Hpos). Rbool. reflexivity.
  - rewrite (Rltb_false 0 x Hnpos).
    destruct (Req_dec_T x 0) as [-> | Hne].
    + Rbool. reflexivity.
    + Rbool. reflexivity.
Qed.

(** X11: a latitude or longitude that is falsy, the number 0 among them,
    stops the handlers that end a trip and that add a route point, first
    thing and with the same answer: no trip ends or gets a route point on
    the equator or on the prime meridian. *)
Theorem falsy_coordinate_refused :
  ToBoolean (VNumber (Fin 0)) = false /\
  (forall latitude longitude : JSValue,
      ToBoolean latitude = false \/ ToBoolean longitude = false ->
      (forall userData gpsDistance actualTravelledDistance
              userProvidedEndOdometer,
          api_trip_end userData
            {| Body.latitude := latitude;
               Body.longitude := longitude;
               Body.gpsDistance := gpsDistance;
               Body.actualTravelledDistance := actualTravelledDistance;
               Body.userProvidedEndOdometer := userProvidedEndOdometer |} =
          Err 400 "Location coordinates are required") /\
      (forall userData,
          api_trip_route userData latitude longitude =
          Err 400 "Location coordinates are required")).
Proof.
  split.
  - cbn. Rbool. reflexivity.
  - intros lat lon Hfalsy.
    assert (Hg : negb (ToBoolean lat) || negb (ToBoolean lon) = true).
    { destruct Hfalsy as [-> | ->]; [reflexivity | apply orb_true_r]. }
    split.
    + intros u gps atd upe. unfold api_trip_end. cbn [Body.latitude Body.longitude].
      rewrite Hg. reflexivity.
    + intros u. unfold api_trip_route. rewrite Hg. reflexivity.
Qed.

Lemma api_trip_start_Ok userData latitude longitude userData' :
  api_trip_start userData latitude longitude = Ok userData' ->
  activeTrip userData = None /\
  userData' =
  {| currentOdometer := currentOdometer userData;
     activeTrip := Some {| startOdometer := currentOdometer userData;
                           startLatitude := latitude;
                           startLongitude := longitude |} |}.
Proof.
  unfold api_trip_start.
  destruct (negb (ToBoolean latitude) || negb (ToBoolean longitude));
    [discriminate |].
  destruct (activeTrip userData); [discriminate |].
  intros H. injection H as <-. split; reflexivity.
Qed.

(** X12: starts and ends alternate.  After a start the user has an active
    trip and no further start is accepted; after an end the user has none
    and every further end is refused. *)
Theorem trip_start_end_alternate :
  (forall userData latitude longitude userData',
      api_trip_start userData latitude longitude = Ok userData' ->
      (exists trip, activeTrip userData' = Some trip) /\
      forall latitude' longitude' userData'',
        api_trip_start userData' latitude' longitude' <> Ok userData'') /\
  (forall userData body completedTrip userData',
      api_trip_end userData body = Ok (completedTrip, userData') ->
      activeTrip userData' = None /\
      forall body',
      exists error, api_trip_end userData' body' = Err 400 error).
Proof.
  split.
  - intros u lat lon u' Hstart.
    destruct (api_trip_start_Ok _ _ _ _ Hstart) as [_ ->].
    split; [eexists; reflexivity |].
    intros lat' lon' u''. unfold api_trip_start. cbn [activeTrip].
    destruct (negb (ToBoolean lat') || negb (ToBoolean lon')); discriminate.
  - intros u body ct u' Hend.
    destruct (api_trip_end_Ok _ _ _ _ _ Hend) as [trip [_ [_ [_ [_ [_ ->]]]]]].
    split; [reflexivity |].
    intros body'. unfold api_trip_end. cbn [activeTrip].
    destruct (negb (ToBoolean (Body.latitude body'))
              || negb (ToBoolean (Body.longitude body')));
      eexists; reflexivity.
Qed.

(** X13: without an end odometer in the request, a trip that ends while the
    current odometer is a whole number never turns the odometer back. *)
Theorem odometer_never_turns_back userData body completedTrip userData' :
  api_trip_end userData body = Ok (completedTrip, userData') ->
  provided (Body.userProvidedEndOdometer body) = false ->
  is_whole (currentOdometer userData) ->
  Num.le (currentOdometer userData) (currentOdometer userData') = true.
Proof.
  intros Hend Hp [a Ha].
  destruct (api_trip_end_Ok _ _ _ _ _ Hend)
    as [trip [_ [_ [_ [Hodo [_ ->]]]]]].
  cbn [currentOdometer]. rewrite Hodo, newEndOdometer_reconcile, Hp.
  pose proof (roundedDistance_nonneg StringToNumber trip (currentOdometer userData) body Hp)
    as Hnn.
  rewrite add_whole_rounded.
  - rewrite Ha in *. unfold nonneg in Hnn.
    destruct (roundedDistance (reconcile trip (Fin (IZR a)) body))
      as [ | [] | d]; try discriminate Hnn; try reflexivity.
    cbn in *. unfold Rleb in Hnn.
    destruct (Rle_dec 0 d); [| discriminate]. apply Rleb_true. lra.
  - exists a. exact Ha.
  - exact Hnn.
  - rewrite roundedDistance_reconcile.
    destruct (roundDistance_whole_or_Inf
                (finalDistance (reconcile trip (currentOdometer userData) body)))
      as [Hw | [s [_ Hs]]]; [left; exact Hw | right; exists s; exact Hs].
Qed.

(** ** Runs of requests *)

Lemma api_odometer_Ok userData odometer userData' :
  api_odometer userData odometer = Ok userData' ->
  activeTrip userData' = activeTrip userData.
Proof.
  unfold api_odometer.
  destruct (negb (ToBoolean odometer) || isNaN StringToNumber odometer
            || Num.lt (parseFloat StringToFloat odometer) (Fin 0));
    [discriminate |].
  intros H. injection H as <-. reflexivity.
Qed.

(** X14: the distance of an ended trip can be told from the [completedTrip]
    the handler answers with.  A trip tagged "GPS tracking" has the rounded
    GPS distance it carries; a trip tagged "straight-line calculation" has
    the rounded distance between the coordinates it carries; the only other
    tag is "odometer reading". *)
Theorem completedTrip_distance_from_record userData body completedTrip
        userData' :
  api_trip_end userData body = Ok (completedTrip, userData') ->
  Completed.distanceSource completedTrip = "odometer reading"%string \/
  (Completed.distanceSource completedTrip = "GPS tracking"%string /\
   Completed.totalDistance completedTrip =
   roundDistance (Completed.gpsDistance completedTrip)) \/
  (Completed.distanceSource completedTrip =
     "straight-line calculation"%string /\
   Completed.totalDistance completedTrip =
   roundDistance
     (VNumber
        (calculateDistance
           (startLatitude (Completed.trip completedTrip))
           (startLongitude (Completed.trip completedTrip))
           (Completed.endLatitude completedTrip)
           (Completed.endLongitude completedTrip)))).
Proof.
  unfold api_trip_end.
  destruct (negb (ToBoolean (Body.latitude body))
            || negb (ToBoolean (Body.longitude body))); [discriminate |].
  destruct (activeTrip userData) as [trip |]; [| discriminate].
  intros H. injection H as <- _.
  cbn [Completed.distanceSource Completed.totalDistance Completed.gpsDistance
       Completed.trip Completed.endLatitude Completed.endLongitude].
  destruct (provided (Body.userProvidedEndOdometer body)) eqn:Hp.
  - left. rewrite reconcile_odometer_branch by exact Hp. reflexivity.
  - right.
    destruct (ToBoolean (Body.gpsDistance body)
              && Num.gt (ToNumber (Body.gpsDistance body)) (Fin 0.01)) eqn:Hg.
    + left. rewrite (reconcile_gps_branch _ _ _ _ Hp Hg).
      cbn [distanceSource roundedDistance].
      apply andb_prop in Hg. destruct Hg as [Ht _].
      unfold js_or. rewrite Ht. split; reflexivity.
    + right. rewrite (reconcile_fallback_branch _ _ _ _ Hp Hg).
      split; reflexivity.
Qed.

Lemma handle_counts (s : Server) (rq : Request) :
  (length (trips (handle s rq)) + active_trips (userData (handle s rq))
   <= length (trips s) + active_trips (userData s)
      + (if is_start rq then 1 else 0))%nat /\
  (length (trips (handle s rq))
   <= length (trips s) + (if is_end rq then 1 else 0))%nat.
Proof.
  unfold active_trips.
  destruct rq as [odometer | lat lon | body]; cbn [handle is_start is_end].
  - destruct (api_odometer (userData s) odometer) as [u |] eqn:Ho.
    + cbn [trips userData]. rewrite (api_odometer_Ok _ _ _ Ho). lia.
    + lia.
  - destruct (api_trip_start (userData s) lat lon) as [u |] eqn:Hs.
    + destruct (api_trip_start_Ok _ _ _ _ Hs) as [Hnone ->].
      cbn [trips userData activeTrip]. rewrite Hnone. lia.
    + destruct (activeTrip (userData s)); lia.
  - destruct (api_trip_end (userData s) body) as [[ct u] |] eqn:He.
    + destruct (api_trip_end_Ok _ _ _ _ _ He)
        as [trip [Hact [_ [_ [_ [_ ->]]]]]].
      cbn [trips userData activeTrip]. rewrite Hact, length_app. cbn. lia.
    + destruct (activeTrip (userData s)); lia.
Qed.

(** X15: every trip of the collection was started and was ended: the trips,
    with the active one if there is one, are no more than the start requests,
    and the trips are no more than the end requests. *)
Theorem trips_bounded_by_requests (requests : list Request) :
  (length (trips (serve requests))
   + active_trips (userData (serve requests))
   <= length (filter is_start requests))%nat /\
  (length (trips (serve requests)) <= length (filter is_end requests))%nat.
Proof.
  unfold serve.
  enough (Hgen : forall s0,
             (length (trips (fold_left handle requests s0))
              + active_trips (userData (fold_left handle requests s0))
              <= length (trips s0) + active_trips (userData s0)
                 + length (filter is_start requests))%nat /\
             (length (trips (fold_left handle requests s0))
              <= length (trips s0) + length (filter is_end requests))%nat).
  { apply (Hgen (initial)). }
  induction requests as [| rq requests IH]; intros s0.
  - cbn. lia.
  - cbn [fold_left filter].
    destruct (IH (handle s0 rq)) as [IH1 IH2].
    destruct (handle_counts s0 rq) as [H1 H2].
    destruct (is_start rq), (is_end rq); cbn [length]; lia.
Qed.

Lemma last_odometer_app odometer log completedTrip :
  last_odometer odometer (log ++ [completedTrip]) =
  Completed.endOdometer completedTrip.
Proof. unfold last_odometer. rewrite fold_left_app. reflexivity. Qed.

Lemma chained_app odometer log completedTrip :
  chained odometer log ->
  startOdometer (Completed.trip completedTrip) = last_odometer odometer log ->
  chained odometer (log ++ [completedTrip]).
Proof.
  revert odometer. induction log as [| t log IH]; intros odometer Hc Hs.
  - cbn in *. split; [exact Hs | exact I].
  - cbn in *. destruct Hc as [Ht Hc]. split; [exact Ht |].
    apply IH; assumption.
Qed.

(** X16: as long as the odometer is not set by hand, the trips a user ends,
    in the order they end, are an unbroken chain: the first starts at 0, each
    further one starts at the odometer the one before ended at, and the
    user's current odometer is the one the last ended at. *)
Theorem log_is_chained (requests : list Request) :
  forallb (fun rq => negb (is_odometer rq)) requests = true ->
  chained (Fin 0) (trips (serve requests)) /\
  currentOdometer (userData (serve requests)) =
  last_odometer (Fin 0) (trips (serve requests)).
Proof.
  intros Hno. unfold serve.
  enough (Hgen : forall s0,
             chained (Fin 0) (trips s0) ->
             currentOdometer (userData s0) =
               last_odometer (Fin 0) (trips s0) ->
             (forall trip, activeTrip (userData s0) = Some trip ->
                           startOdometer trip = currentOdometer (userData s0)) ->
             chained (Fin 0) (trips (fold_left handle requests s0)) /\
             currentOdometer (userData (fold_left handle requests s0)) =
             last_odometer (Fin 0) (trips (fold_left handle requests s0))).
  { apply Hgen; [exact I | reflexivity | intros trip H; discriminate H]. }
  induction requests as [| rq requests IH]; intros s0 Hc Ho Ha.
  - split; assumption.
  - cbn [forallb] in Hno. apply andb_prop in Hno. destruct Hno as [Hrq Hno].
    cbn [fold_left].
    destruct rq as [odometer | lat lon | body]; [discriminate Hrq | |];
      cbn [handle].
    + destruct (api_trip_start (userData s0) lat lon) as [u |] eqn:Hs;
        [| apply IH; assumption].
      destruct (api_trip_start_Ok _ _ _ _ Hs) as [_ ->].
      apply IH; [exact Hno | exact Hc | exact Ho |].
      cbn. intros trip H. injection H as <-. reflexivity.
    + destruct (api_trip_end (userData s0) body) as [[ct u] |] eqn:He;
        [| apply IH; assumption].
      destruct (api_trip_end_Ok _ _ _ _ _ He)
        as [trip [Hact [Htrip [_ [_ [_ ->]]]]]].
      apply IH; [exact Hno | | |]; cbn [trips userData currentOdometer activeTrip].
      * apply chained_app; [exact Hc |].
        rewrite Htrip, <- Ho. apply Ha, Hact.
      * rewrite last_odometer_app. reflexivity.
      * intros t H. discriminate H.
Qed.

(** ** Edges of the reconciliation *)

Lemma add_zero_r (n : number) : Num.add n (Fin 0) = n.
Proof.
  destruct n as [ | s | x]; try reflexivity. apply Fin_eq. lra.
Qed.


End MoreProperties.

(** ** Token lifetime *)

Lemma setHours_1_0_0_0_spec (offset d : Z) :
  ((setHours_1_0_0_0 offset d + offset) mod msPerDay = msPerHour /\
   d - msPerDay + msPerHour < setHours_1_0_0_0 offset d <= d + msPerHour)%Z.
Proof.
  unfold setHours_1_0_0_0, msPerDay, msPerHour.
  split.
  - replace ((d + offset) / 86400000 * 86400000 + 3600000 - offset + offset)%Z
      with (3600000 + (d + offset) / 86400000 * 86400000)%Z by lia.
    rewrite Z.mod_add by lia. reflexivity.
  - pose proof (Z.div_mod (d + offset) 86400000 ltac:(lia)) as Hdm.
    pose proof (Z.mod_pos_bound (d + offset) 86400000 ltac:(lia)) as Hb.
    lia.
Qed.

(** X21: the token of a login expires at the first 1 AM, local time, that
    comes after the login: [next1AM] is later than [now], at most a day
    later when the two clock readings agree, and falls on 1:00:00.000; the
    lifetime in seconds is not negative, at most 86400 then, and ends within
    the last second before that 1 AM. *)
Theorem token_expires_at_next_1AM (offset now now' : Z) :
  (now <= now')%Z ->
  let expiry := next1AM offset now now' in
  let seconds := getSecondsUntilNext1AM offset now now' in
  (now < expiry <= now' + msPerDay)%Z /\
  ((expiry + offset) mod msPerDay = msPerHour)%Z /\
  (0 <= seconds)%Z /\
  (expiry - 1000 < now + 1000 * seconds <= expiry)%Z /\
  (now' = now -> (seconds <= 86400)%Z).
Proof.
  intros Hclock expiry seconds.
  destruct (setHours_1_0_0_0_spec offset now') as [Hmod Hrange].
  assert (Hexp : (now < expiry <= now' + msPerDay)%Z /\
                 ((expiry + offset) mod msPerDay = msPerHour)%Z).
  { unfold expiry, next1AM. cbv zeta.
    destruct (Z.geb_spec now (setHours_1_0_0_0 offset now')) as [Hge | Hlt].
    - split.
      + unfold msPerDay, msPerHour in *. lia.
      + replace (setHours_1_0_0_0 offset now' + msPerDay + offset)%Z
          with (setHours_1_0_0_0 offset now' + offset + 1 * msPerDay)%Z by lia.
        rewrite Z.mod_add by (unfold msPerDay; lia). exact Hmod.
    - split; [unfold msPerDay, msPerHour in *; lia | exact Hmod]. }
  destruct Hexp as [Hlate Hone].
  assert (Hsec : seconds = ((expiry - now) / 1000)%Z) by reflexivity.
  pose proof (Z.div_mod (expiry - now) 1000 ltac:(lia)) as Hdm.
  pose proof (Z.mod_pos_bound (expiry - now) 1000 ltac:(lia)) as Hb.
  rewrite <- Hsec in Hdm.
  split; [exact Hlate | split; [exact Hone |]].
  unfold msPerDay in *.
  split; [lia | split; [lia |]].
  intros ->. lia.
Qed.

(** ** E-mail validation *)

Module RegexFacts.
Import Regex.

Lemma lang_Class_inv p s :
  lang (Class p) s <-> exists c, s = [c] /\ p c = true.
Proof.
  split.
  - intros H. inversion H; subst. eexists. split; [reflexivity | assumption].
  - intros [c [-> Hc]]. constructor. exact Hc.
Qed.

Lemma lang_Cat_inv r s w :
  lang (Cat r s) w <-> exists u v, w = u ++ v /\ lang r u /\ lang s v.
Proof.
  split.
  - intros H. inversion H; subst. eexists. eexists.
    split; [reflexivity | split; assumption].
  - intros [u [v [-> [Hu Hv]]]]. constructor; assumption.
Qed.

Lemma lang_nil_Cat r s : lang (Cat r s) [] -> lang r [] /\ lang s [].
Proof.
  intros H. apply lang_Cat_inv in H. destruct H as [u [v [Heq [Hu Hv]]]].
  symmetry in Heq. apply app_eq_nil in Heq. destruct Heq as [-> ->].
  split; assumption.
Qed.

Lemma nullable_spec (r : t) : nullable r = true <-> lang r [].
Proof.
  induction r as [ | | p | r IHr s IHs | r IHr s IHs | r IHr]; cbn.
  - split; [discriminate | intros H; inversion H].
  - split; [intros _; constructor | reflexivity].
  - split; [discriminate | intros H; inversion H].
  - rewrite andb_true_iff, IHr, IHs. split.
    + intros [Hr Hs]. apply (lang_Cat r s [] []); assumption.
    + apply lang_nil_Cat.
  - rewrite orb_true_iff, IHr, IHs. split.
    + intros [H | H]; [apply lang_Alt_l | apply lang_Alt_r]; exact H.
    + intros H. inversion H; subst; [left | right]; assumption.
  - split; [intros _; constructor | reflexivity].
Qed.

(** A non-empty string of [r*] begins with a non-empty string of [r]. *)
Lemma lang_Star_cons_inv r c s :
  lang (Star r) (c :: s) ->
  exists u v, s = u ++ v /\ lang r (c :: u) /\ lang (Star r) v.
Proof.
  intros H. remember (Star r) as r' eqn:Hr. remember (c :: s) as w eqn:Hw.
  revert s Hw.
  induction H as [ | | | | | r0 | r0 u v Hu _ Hv IHv]; intros tail Htail;
    try discriminate Hr; try discriminate Htail.
  injection Hr as ->.
  destruct u as [| c' u'].
  - cbn in Htail. apply (IHv eq_refl tail Htail).
  - cbn in Htail. injection Htail as -> <-.
    exists u', v. repeat split; assumption.
Qed.

Lemma deriv_spec (r : t) : forall c s, lang (deriv c r) s <-> lang r (c :: s).
Proof.
  induction r as [ | | p | r IHr s' IHs | r IHr s' IHs | r IHr]; intros c s;
    cbn [deriv].
  - split; intros H; inversion H.
  - split; intros H; inversion H.
  - destruct (p c) eqn:Hp; split; intros H.
    + inversion H; subst. constructor. exact Hp.
    + inversion H; subst. constructor.
    + inversion H.
    + inversion H; subst. congruence.
  - assert (Hcat : lang (Cat (deriv c r) s') s ->
                   lang (Cat r s') (c :: s)).
    { intros H. apply lang_Cat_inv in H.
      destruct H as [u [v [-> [Hu Hv]]]].
      apply IHr in Hu. apply (lang_Cat r s' (c :: u) v); assumption. }
    assert (Hinv : lang (Cat r s') (c :: s) ->
                   lang (Cat (deriv c r) s') s \/
                   (lang r [] /\ lang s' (c :: s))).
    { intros H. apply lang_Cat_inv in H.
      destruct H as [u [v [Heq [Hu Hv]]]].
      destruct u as [| c' u'].
      - right. cbn in Heq. subst v. split; assumption.
      - left. cbn in Heq. injection Heq as -> ->.
        apply (lang_Cat (deriv c' r) s' u' v); [apply IHr |]; assumption. }
    destruct (nullable r) eqn:Hn.
    + split.
      * intros H. inversion H; subst.
        -- apply Hcat. assumption.
        -- apply (lang_Cat r s' [] (c :: s));
             [apply nullable_spec, Hn | apply IHs; assumption].
      * intros H. destruct (Hinv H) as [Hl | [_ Hr]].
        -- apply lang_Alt_l, Hl.
        -- apply lang_Alt_r, IHs, Hr.
    + split; [exact Hcat |].
      intros H. destruct (Hinv H) as [Hl | [Hr _]]; [exact Hl |].
      apply nullable_spec in Hr. congruence.
  - split; intros H.
    + inversion H; subst;
        [apply lang_Alt_l, IHr | apply lang_Alt_r, IHs]; assumption.
    + inversion H; subst;
        [apply lang_Alt_l, IHr | apply lang_Alt_r, IHs]; assumption.
  - split; intros H.
    + apply lang_Cat_inv in H. destruct H as [u [v [-> [Hu Hv]]]].
      apply IHr in Hu. apply (lang_Star_cons r (c :: u) v); assumption.
    + destruct (lang_Star_cons_inv _ _ _ H) as [u [v [-> [Hu Hv]]]].
      apply (lang_Cat (deriv c r) (Star r) u v); [apply IHr |]; assumption.
Qed.

(** Matching by derivatives decides membership. *)
Lemma test_spec (r : t) (s : jsstring) : test r s = true <-> lang r s.
Proof.
  revert r. induction s as [| c s IH]; intros r; cbn [test].
  - apply nullable_spec.
  - rewrite IH. apply deriv_spec.
Qed.

Lemma lang_Star_Class p s :
  lang (Star (Class p)) s <-> forallb p s = true.
Proof.
  split.
  - intros H. remember (Star (Class p)) as r eqn:Hr.
    induction H as [ | | | | | r0 | r0 u v Hu _ Hv IHv];
      try discriminate Hr; [reflexivity |].
    injection Hr as ->. apply lang_Class_inv in Hu.
    destruct Hu as [c [-> Hc]]. cbn. rewrite Hc. apply IHv. reflexivity.
  - induction s as [| c s IH]; intros H; [constructor |].
    cbn in H. apply andb_prop in H. destruct H as [Hc Hs].
    apply (lang_Star_cons (Class p) [c] s); [constructor; exact Hc |].
    apply IH, Hs.
Qed.

Lemma lang_plus_Class p s :
  lang (plus (Class p)) s <-> s <> [] /\ forallb p s = true.
Proof.
  unfold plus. rewrite lang_Cat_inv. split.
  - intros [u [v [-> [Hu Hv]]]]. apply lang_Class_inv in Hu.
    destruct Hu as [c [-> Hc]]. apply lang_Star_Class in Hv.
    split; [discriminate |]. cbn. rewrite Hc. exact Hv.
  - intros [Hne H]. destruct s as [| c s]; [contradiction |].
    cbn in H. apply andb_prop in H. destruct H as [Hc Hs].
    exists [c], s. split; [reflexivity |].
    split; [constructor; exact Hc | apply lang_Star_Class, Hs].
Qed.

Lemma lang_two_or_more_Class p s :
  lang (two_or_more (Class p)) s <->
  (2 <= length s)%nat /\ forallb p s = true.
Proof.
  unfold two_or_more. rewrite lang_Cat_inv. split.
  - intros [u [v [-> [Hu Hv]]]]. apply lang_Class_inv in Hu.
    destruct Hu as [c [-> Hc]].
    apply (lang_plus_Class p v) in Hv. destruct Hv as [Hne Hv].
    split.
    + destruct v; [contradiction | cbn; lia].
    + cbn. rewrite Hc. exact Hv.
  - intros [Hlen H]. destruct s as [| c [| c' s]]; cbn in Hlen; try lia.
    cbn in H. apply andb_prop in H. destruct H as [Hc Hs].
    exists [c], (c' :: s). split; [reflexivity |].
    split; [constructor; exact Hc |].
    apply (lang_plus_Class p (c' :: s)). split; [discriminate | exact Hs].
Qed.

End RegexFacts.

Lemma one_of_at (c : N) : one_of "@" c = true <-> c = 64%N.
Proof.
  unfold one_of. cbn. rewrite orb_false_r. apply N.eqb_eq.
Qed.

Lemma one_of_dot (c : N) : one_of "." c = true <-> c = 46%N.
Proof.
  unfold one_of. cbn. rewrite orb_false_r. apply N.eqb_eq.
Qed.

Lemma isValidEmail_parts (email : jsstring) :
  isValidEmail email = true <->
  exists localPart domain tld : jsstring,
    email = localPart ++ 64%N :: domain ++ 46%N :: tld /\
    localPart <> [] /\ forallb local_char localPart = true /\
    domain <> [] /\ forallb domain_char domain = true /\
    (2 <= length tld)%nat /\ forallb letter tld = true.
Proof.
  unfold isValidEmail, emailRegex. rewrite RegexFacts.test_spec.
  rewrite RegexFacts.lang_Cat_inv. split.
  - intros [l [rest1 [-> [Hl Hrest]]]].
    apply RegexFacts.lang_plus_Class in Hl. destruct Hl as [Hl1 Hl2].
    apply RegexFacts.lang_Cat_inv in Hrest.
    destruct Hrest as [a [rest2 [-> [Ha Hrest]]]].
    apply RegexFacts.lang_Class_inv in Ha. destruct Ha as [c [-> Hc]].
    apply one_of_at in Hc. subst c.
    apply RegexFacts.lang_Cat_inv in Hrest.
    destruct Hrest as [d [rest3 [-> [Hd Hrest]]]].
    apply RegexFacts.lang_plus_Class in Hd. destruct Hd as [Hd1 Hd2].
    apply RegexFacts.lang_Cat_inv in Hrest.
    destruct Hrest as [dot [tld [-> [Hdot Htld]]]].
    apply RegexFacts.lang_Class_inv in Hdot. destruct Hdot as [c [-> Hc]].
    apply one_of_dot in Hc. subst c.
    apply RegexFacts.lang_two_or_more_Class in Htld.
    destruct Htld as [Ht1 Ht2].
    exists l, d, tld. repeat split; assumption.
  - intros [l [d [tld [-> [Hl1 [Hl2 [Hd1 [Hd2 [Ht1 Ht2]]]]]]]]].
    exists l, (64%N :: d ++ 46%N :: tld). split; [reflexivity |].
    split; [apply RegexFacts.lang_plus_Class; split; assumption |].
    apply RegexFacts.lang_Cat_inv.
    exists [64%N], (d ++ 46%N :: tld). split; [reflexivity |].
    split; [apply RegexFacts.lang_Class_inv; exists 64%N;
            split; [reflexivity | apply one_of_at; reflexivity] |].
    apply RegexFacts.lang_Cat_inv.
    exists d, (46%N :: tld). split; [reflexivity |].
    split; [apply RegexFacts.lang_plus_Class; split; assumption |].
    apply RegexFacts.lang_Cat_inv.
    exists [46%N], tld. split; [reflexivity |].
    split; [apply RegexFacts.lang_Class_inv; exists 46%N;
            split; [reflexivity | apply one_of_dot; reflexivity] |].
    apply RegexFacts.lang_two_or_more_Class. split; assumption.
Qed.

(** X22: the addresses [isValidEmail] accepts are those made of a non-empty
    local part, an [@], a non-empty domain, a dot and two letters or more,
    each part with its own characters only. *)
Theorem isValidEmail_shape (email : jsstring) :
  isValidEmail email = true <->
  exists localPart domain tld : jsstring,
    email = localPart ++ 64%N :: domain ++ 46%N :: tld /\
    localPart <> [] /\ forallb local_char localPart = true /\
    domain <> [] /\ forallb domain_char domain = true /\
    (2 <= length tld)%nat /\ forallb letter tld = true.
Proof. exact (isValidEmail_parts email). Qed.

Lemma forallb_impl (p q : N -> bool) (l : list N) :
  (forall c, p c = true -> q c = true) ->
  forallb p l = true -> forallb q l = true.
Proof.
  intros Hpq. induction l as [| c l IH]; [reflexivity |].
  cbn. intros H. apply andb_prop in H. destruct H as [Hc Hl].
  rewrite (Hpq c Hc), (IH Hl). reflexivity.
Qed.

Lemma count_occ_forallb (p : N -> bool) (l : list N) (x : N) :
  p x = false -> forallb p l = true -> count_occ N.eq_dec l x = 0%nat.
Proof.
  intros Hx. induction l as [| c l IH]; [reflexivity |].
  cbn. intros H. apply andb_prop in H. destruct H as [Hc Hl].
  destruct (N.eq_dec c x) as [-> | _]; [congruence | apply IH, Hl].
Qed.

Lemma one_of_sub (c : N) : one_of ".-" c = true -> one_of "._%+-" c = true.
Proof.
  unfold one_of. cbn. rewrite !orb_false_r.
  intros H. apply orb_prop in H. destruct H as [-> | ->];
    rewrite ?orb_true_r; reflexivity.
Qed.

Lemma domain_char_local (c : N) : domain_char c = true -> local_char c = true.
Proof.
  unfold domain_char, local_char. intros H. apply orb_prop in H.
  destruct H as [-> | H]; [reflexivity |].
  rewrite (one_of_sub c H). apply orb_true_r.
Qed.

Lemma letter_local (c : N) : letter c = true -> local_char c = true.
Proof.
  unfold local_char, alphanumeric. intros ->. reflexivity.
Qed.

(** X23: an accepted address has exactly one [@], six code units at least,
    and no code unit other than an ASCII letter, a digit or one of
    [. _ % + - @]: no space, and nothing outside ASCII. *)
Theorem isValidEmail_necessary (email : jsstring) :
  isValidEmail email = true ->
  count_occ N.eq_dec email 64%N = 1%nat /\
  (6 <= length email)%nat /\
  forallb (fun c => local_char c || (c =? 64)%N) email = true.
Proof.
  intros H. apply isValidEmail_parts in H.
  destruct H as [l [d [tld [-> [Hl1 [Hl2 [Hd1 [Hd2 [Ht1 Ht2]]]]]]]]].
  split; [| split].
  - rewrite count_occ_app. cbn [count_occ].
    destruct (N.eq_dec 64 64) as [_ | Hne]; [| contradiction].
    rewrite count_occ_app. cbn [count_occ].
    destruct (N.eq_dec 46 64) as [Heq | _]; [discriminate Heq |].
    rewrite (count_occ_forallb local_char l 64%N eq_refl Hl2).
    rewrite (count_occ_forallb domain_char d 64%N eq_refl Hd2).
    rewrite (count_occ_forallb letter tld 64%N eq_refl Ht2).
    reflexivity.
  - rewrite length_app. cbn [length]. rewrite length_app. cbn [length].
    destruct l; [contradiction |]. destruct d; [contradiction |].
    cbn [length]. lia.
  - assert (Hsub : forall c, local_char c = true ->
                             local_char c || (c =? 64)%N = true)
      by (intros c ->; reflexivity).
    rewrite forallb_app. cbn [forallb]. rewrite forallb_app. cbn [forallb].
    rewrite (forallb_impl _ _ l Hsub Hl2).
    rewrite (forallb_impl _ _ d
               (fun c Hc => Hsub c (domain_char_local c Hc)) Hd2).
    rewrite (forallb_impl _ _ tld
               (fun c Hc => Hsub c (letter_local c Hc)) Ht2).
    reflexivity.
Qed.

(** ** Reverse geocoding *)

Lemma js_or_truthy_r (a b : JSValue) :
  ToBoolean b = true -> ToBoolean (js_or a b) = true.
Proof.
  intros Hb. unfold js_or. destruct (ToBoolean a) eqn:Ha; assumption.
Qed.

(** X24: [getAreaFromCoordinates] never resolves to a falsy area.  It
    resolves to the first truthy one of [city], [town], [village], [county]
    and [state] of a reply with status 200, and to "Unknown Area" when there
    is none or when the request ends in any other way. *)
Theorem area_is_never_empty :
  (forall outcome, ToBoolean (getAreaFromCoordinates outcome) = true) /\
  (forall outcome,
      (forall address, outcome <> Reply 200 (Some (Some address))) ->
      getAreaFromCoordinates outcome = VString "Unknown Area") /\
  (forall address,
      getAreaFromCoordinates (Reply 200 (Some (Some address))) =
      if ToBoolean (Address.city address) then Address.city address
      else if ToBoolean (Address.town address) then Address.town address
      else if ToBoolean (Address.village address)
           then Address.village address
      else if ToBoolean (Address.county address) then Address.county address
      else if ToBoolean (Address.state address) then Address.state address
      else VString "Unknown Area").
Proof.
  split; [| split].
  - intros [ | | statusCode [[address |] |]]; try reflexivity;
      cbn [getAreaFromCoordinates];
      destruct (negb (statusCode =? 200)%Z); try reflexivity.
    apply js_or_truthy_r. reflexivity.
  - intros [ | | statusCode [[address |] |]] Hne; try reflexivity;
      cbn [getAreaFromCoordinates];
      destruct (Z.eqb_spec statusCode 200) as [-> | _]; try reflexivity.
    exfalso. apply (Hne address). reflexivity.
  - intros address. cbn [getAreaFromCoordinates Z.eqb Pos.eqb negb].
    unfold js_or.
    destruct (ToBoolean (Address.city address)) eqn:H1,
             (ToBoolean (Address.town address)) eqn:H2,
             (ToBoolean (Address.village address)) eqn:H3,
             (ToBoolean (Address.county address)) eqn:H4,
             (ToBoolean (Address.state address)) eqn:H5;
      repeat (cbv beta iota; rewrite ?H1, ?H2, ?H3, ?H4, ?H5);
      reflexivity.
Qed.

(** ** The further properties at sample inputs *)

Lemma roundDistance_monotone_witness :
  Num.le (Fin 2.5) (Fin 2.6) = true /\
  Num.le (roundDistance (VNumber (Fin 2.5)))
         (roundDistance (VNumber (Fin 2.6))) = true.
Proof.
  assert (H : Num.le (Fin 2.5) (Fin 2.6) = true) by (apply Rleb_true; lra).
  split; [exact H | exact (roundDistance_monotone _ _ H)].
Defined.

Lemma roundDistance_error_bound_witness :
  2.5 <> above_minus_half /\
  exists r : R,
    roundDistance (VNumber (Fin 2.5)) = Fin r /\ - 0.5 <= r - 2.5 < 0.5.
Proof.
  assert (H : 2.5 <> above_minus_half) by (unfold above_minus_half; lra).
  split; [exact H | exact (roundDistance_error_bound 2.5 H)].
Defined.

Lemma roundDistance_vs_Math_round_witness :
  2.5 <> above_minus_half /\
  roundDistance (VNumber (Fin 2.5)) =
  if Reqb (2.5 - Math.Rfloor 2.5) 0.5
  then Num.sub (Math.round (Fin 2.5)) (Fin 1)
  else Math.round (Fin 2.5).
Proof.
  assert (H : 2.5 <> above_minus_half) by (unfold above_minus_half; lra).
  split; [exact H | exact (roundDistance_vs_Math_round 2.5 H)].
Defined.

Lemma calculateDistance_NaN_witness :
  is_finite (ToNumber Sample.engine VUndefined)
  && is_finite (ToNumber Sample.engine (Sample.num 151.2093))
  && is_finite (ToNumber Sample.engine (Sample.num (-37.8136)))
  && is_finite (ToNumber Sample.engine (Sample.num 144.9631)) = false /\
  calculateDistance Sample.engine VUndefined (Sample.num 151.2093)
                    (Sample.num (-37.8136)) (Sample.num 144.9631) = NaN.
Proof.
  split; [reflexivity |].
  apply (calculateDistance_NaN Sample.engine). reflexivity.
Defined.

Lemma totalDistance_negative_witness :
  provided (Sample.num 10) = true /\
  Num.le (Fin (- 5)) (Fin (- 0.5)) = true /\
  ~ nonneg
      (roundedDistance
         (reconcile Sample.engine (Sample.trip 0) (Fin 0)
            (Sample.body VUndefined (VNumber (Fin (- 5))) (Sample.num 10)))) /\
  exists n, VNumber (Fin (- 5)) = VNumber n /\
            Num.lt n (Fin (- 0.49)) = true.
Proof.
  assert (H : Num.le (Fin (- 5)) (Fin (- 0.5)) = true)
    by (apply Rleb_true; lra).
  assert (Hneg : ~ nonneg
                     (roundedDistance
                        (reconcile Sample.engine (Sample.trip 0) (Fin 0)
                           (Sample.body VUndefined (VNumber (Fin (- 5)))
                                        (Sample.num 10))))).
  { apply (proj2 (totalDistance_negative Sample.engine _ _ _));
      [reflexivity |].
    exists (Fin (- 5)). split; [reflexivity | exact H]. }
  split; [reflexivity | split; [exact H | split; [exact Hneg |]]].
  exact (proj2 (proj1 (totalDistance_negative Sample.engine _ _ _) Hneg)).
Defined.

Lemma falsy_coordinate_refused_witness :
  ToBoolean (VNumber (Fin 0)) = false /\
  api_trip_end Sample.engine (Sample.user 100)
    {| Body.latitude := VNumber (Fin 0);
       Body.longitude := Sample.num 144.9631;
       Body.gpsDistance := Sample.num 5;
       Body.actualTravelledDistance := VUndefined;
       Body.userProvidedEndOdometer := VUndefined |} =
  Err 400 "Location coordinates are required" /\
  api_trip_route (Sample.user 100) (VNumber (Fin 0)) (Sample.num 144.9631) =
  Err 400 "Location coordinates are required".
Proof.
  destruct (falsy_coordinate_refused Sample.engine) as [H0 H].
  split; [exact H0 |].
  destruct (H (VNumber (Fin 0)) (Sample.num 144.9631) (or_introl H0))
    as [Hend Hroute].
  split; [apply Hend | apply Hroute].
Defined.

Lemma sample_start :
  api_trip_start {| currentOdometer := Fin 100; activeTrip := None |}
                 (Sample.num (-33.8688)) (Sample.num 151.2093) =
  Ok (Sample.user 100).
Proof. run_handler. reflexivity. Qed.

Lemma trip_start_end_alternate_witness :
  api_trip_start {| currentOdometer := Fin 100; activeTrip := None |}
                 (Sample.num (-33.8688)) (Sample.num 151.2093) =
  Ok (Sample.user 100) /\
  api_trip_start (Sample.user 100) (Sample.num (-33.8688))
                 (Sample.num 151.2093) <> Ok (Sample.user 100) /\
  (exists error,
      api_trip_end Sample.engine
                   {| currentOdometer := Fin 105; activeTrip := None |}
                   (Sample.body (Sample.num 5) VUndefined VUndefined) =
      Err 400 error).
Proof.
  destruct (trip_start_end_alternate Sample.engine) as [Hstart Hend].
  split; [exact sample_start | split].
  - apply (proj2 (Hstart _ _ _ _ sample_start)).
  - apply (proj2 (Hend _ _ _ _ sample_gps_trip)).
Defined.

Lemma odometer_never_turns_back_witness :
  provided VUndefined = false /\
  is_whole (Fin 100) /\
  Num.le (Fin 100) (Fin 105) = true.
Proof.
  assert (Hw : is_whole (Fin 100)) by (exists 100%Z; reflexivity).
  split; [reflexivity | split; [exact Hw |]].
  exact (odometer_never_turns_back Sample.engine _ _ _ _
           sample_gps_trip eq_refl Hw).
Defined.

Lemma completedTrip_distance_from_record_witness :
  api_trip_end Sample.engine (Sample.user 100)
               (Sample.body (Sample.num 5) VUndefined VUndefined) =
  Ok (Sample.completed 100 (Sample.num 5) (Fin 105) (Fin 5) "GPS tracking",
      {| currentOdometer := Fin 105; activeTrip := None |}) /\
  ("GPS tracking"%string = "odometer reading"%string \/
   ("GPS tracking"%string = "GPS tracking"%string /\
    Fin 5 = roundDistance (Sample.num 5)) \/
   ("GPS tracking"%string = "straight-line calculation"%string /\
    Fin 5 =
    roundDistance
      (VNumber
         (calculateDistance Sample.engine
            (Sample.num (-33.8688)) (Sample.num 151.2093)
            (Sample.num (-37.8136)) (Sample.num 144.9631))))).
Proof.
  split; [exact sample_gps_trip |].
  exact (completedTrip_distance_from_record Sample.engine _ _ _ _
           sample_gps_trip).
Defined.

Lemma log_is_chained_witness :
  forallb (fun rq => negb (is_odometer rq))
          [Sample.start;
           PostTripEnd (Sample.body (Sample.num 5) VUndefined VUndefined)]
  = true /\
  chained (Fin 0)
          (trips (serve Sample.engine Sample.engine
                    [Sample.start;
                     PostTripEnd (Sample.body (Sample.num 5) VUndefined
                                              VUndefined)])).
Proof.
  split; [reflexivity |].
  apply (log_is_chained Sample.engine Sample.engine). reflexivity.
Defined.

Lemma token_expires_at_next_1AM_witness :
  (1700000000000 <= 1700000000000)%Z /\
  (1700000000000 < next1AM 36000000 1700000000000 1700000000000
   <= 1700000000000 + msPerDay)%Z.
Proof.
  assert (H : (1700000000000 <= 1700000000000)%Z) by lia.
  split; [exact H |].
  exact (proj1 (token_expires_at_next_1AM 36000000 _ _ H)).
Defined.

Lemma isValidEmail_shape_witness :
  isValidEmail (code_units "user@example.com") = true /\
  exists localPart domain tld : jsstring,
    code_units "user@example.com" =
      localPart ++ 64%N :: domain ++ 46%N :: tld /\
    localPart <> [] /\ forallb local_char localPart = true /\
    domain <> [] /\ forallb domain_char domain = true /\
    (2 <= length tld)%nat /\ forallb letter tld = true.
Proof.
  assert (H : isValidEmail (code_units "user@example.com") = true)
    by reflexivity.
  split; [exact H |].
  exact (proj1 (isValidEmail_shape _) H).
Defined.

Lemma isValidEmail_necessary_witness :
  isValidEmail (code_units "user@example.com") = true /\
  count_occ N.eq_dec (code_units "user@example.com") 64%N = 1%nat.
Proof.
  assert (H : isValidEmail (code_units "user@example.com") = true)
    by reflexivity.
  split; [exact H |].
  exact (proj1 (isValidEmail_necessary _ H)).
Defined.

Lemma area_is_never_empty_witness :
  (forall address, RequestTimeout <> Reply 200 (Some (Some address))) /\
  getAreaFromCoordinates RequestTimeout = VString "Unknown Area".
Proof.
  assert (H : forall address,
             RequestTimeout <> Reply 200 (Some (Some address)))
    by (intros address Heq; discriminate Heq).
  split; [exact H |].
  exact (proj1 (proj2 area_is_never_empty) RequestTimeout H).
Defined.

